(** * JEE Time Tracker: the question timer and the session clock

    A shallow embedding of [src/types.ts] and of the state, the handlers and
    the timer effect of the [App] component in [src/App.tsx], together with
    the parts of [SetupScreen], [TrackerGrid] and [ControlOverlay] that decide
    which handler calls the user interface offers.

    Conventions of the embedding.
    - Millisecond quantities ([timeSpentMs], [remainingTimeMs], the values of
      [Date.now()]) are integers in the source and are modelled by [Z].
    - The configuration holds fractional minutes (doubles in the source).
      A field holds the rational value of the number as written or typed;
      [handleStartSession] computes with the nearest double and rounds after
      every multiplication, as IEEE 754 binary64 does ([Double]).
    - Every [Date.now()] read is an explicit argument [now].
    - React state setters are state transformers on [AppState]; a handler is
      the sequence of its setter calls.  The timer effect is re-run by
      [commit] after a handler whenever one of its dependencies changed, as
      React does after the render that follows the handler. *)

From Stdlib Require Ascii String DecimalString SpecFloat.
From Stdlib Require Import ZArith QArith List Bool Finite Lia Lqa.
Import ListNotations.

Local Open Scope Z_scope.

(** ** src/types.ts *)

Module Types.

Inductive QuestionStatus : Set :=
| NOT_STARTED
| ACTIVE
| PAUSED
| SKIPPED
| COMPLETED.

Inductive SubjectName : Set := Maths | Physics | Chemistry.

(** [type Subject = 'Maths' | 'Physics' | 'Chemistry' | null] *)
Definition Subject : Set := option SubjectName.

Record AppConfig : Set := mkAppConfig {
  range1Limit : Q;
  range2Lower : Q;
  range2Upper : Q;
  range3Limit : Q;
  longQuestionThresholdMin : Q;
  idealTimePerQuestionMin : Q;
  subject : Subject
}.

Definition DEFAULT_CONFIG : AppConfig :=
  {| range1Limit := 2;
     range2Lower := 2;
     range2Upper := 3;
     range3Limit := 3;
     longQuestionThresholdMin := 35 # 10;
     idealTimePerQuestionMin := 24 # 10;
     subject := None |}.

Record Question : Set := mkQuestion {
  id : Z;
  status : QuestionStatus;
  timeSpentMs : Z;
  wasSkipped : bool
}.

Definition QuestionStatus_eqb (a b : QuestionStatus) : bool :=
  match a, b with
  | NOT_STARTED, NOT_STARTED
  | ACTIVE, ACTIVE
  | PAUSED, PAUSED
  | SKIPPED, SKIPPED
  | COMPLETED, COMPLETED => true
  | _, _ => false
  end.

(** Object spread with one field replaced: [{ ...q, status: st }] etc. *)
Definition with_status (st : QuestionStatus) (q : Question) : Question :=
  {| id := id q; status := st;
     timeSpentMs := timeSpentMs q; wasSkipped := wasSkipped q |}.

Definition with_timeSpentMs (t : Z) (q : Question) : Question :=
  {| id := id q; status := status q;
     timeSpentMs := t; wasSkipped := wasSkipped q |}.

Definition with_wasSkipped (b : bool) (q : Question) : Question :=
  {| id := id q; status := status q;
     timeSpentMs := timeSpentMs q; wasSkipped := b |}.

End Types.

Export Types.

(** ** JavaScript numbers: IEEE 754 binary64 *)

Module Double.

Definition prec : Z := 53.
Definition emax : Z := 1024.

(** The double of an integer (exact below 2^53, rounded to nearest even
    above). *)
Definition ofZ (z : Z) : SpecFloat.spec_float :=
  SpecFloat.binary_normalize prec emax z 0 false.

(** The double nearest to a rational whose numerator and denominator are
    below 2^53: the correctly rounded quotient, which is what a decimal
    literal and [parseFloat] give. *)
Definition ofQ (q : Q) : SpecFloat.spec_float :=
  SpecFloat.SFdiv prec emax (ofZ (Qnum q)) (ofZ (Zpos (Qden q))).

(** [x * y] *)
Definition mul (x y : SpecFloat.spec_float) : SpecFloat.spec_float :=
  SpecFloat.SFmul prec emax x y.

(** [Math.floor(x)] for a finite [x]; [Math.floor] of NaN or of an infinity
    is not an integer. *)
Definition floor (x : SpecFloat.spec_float) : option Z :=
  match x with
  | SpecFloat.S754_zero _ => Some 0
  | SpecFloat.S754_finite sign m e =>
      let v := if sign then Z.neg m else Z.pos m in
      Some (if 0 <=? e then v * 2 ^ e else v / 2 ^ (- e))
  | SpecFloat.S754_infinity _ | SpecFloat.S754_nan => None
  end.

End Double.

(** ** src/App.tsx *)

Module App.

Inductive AppView : Set := SETUP | TRACKER | ANALYTICS.

Definition AppView_eqb (a b : AppView) : bool :=
  match a, b with
  | SETUP, SETUP | TRACKER, TRACKER | ANALYTICS, ANALYTICS => true
  | _, _ => false
  end.

(** The callback handed to [window.setInterval] closes over the
    [activeQuestionId] of the render in which the effect ran; a registered
    interval is represented by that captured value. *)
Record Interval : Set := mkInterval {
  capturedActiveQuestionId : option Z
}.

(** The component's [useState] cells, its two refs, and the one piece of
    React bookkeeping the timer effect needs: whether the last run of the
    effect returned its cleanup function. *)
Record AppState : Set := mkAppState {
  view : AppView;
  questions : list Question;
  activeQuestionId : option Z;
  config : AppConfig;
  totalAllocatedTimeMs : Z;
  remainingTimeMs : Z;
  isGlobalPaused : bool;
  showGlobalTimerControls : bool;
  timerIntervalRef : option Interval;
  lastTickRef : Z;
  effectCleanup : bool
}.

(** A handler body: a sequence of setter calls. *)
Definition Act : Type := AppState -> AppState.

Definition seqAct (a b : Act) : Act := fun s => b (a s).

Declare Scope act_scope.
Delimit Scope act_scope with act.
Bind Scope act_scope with Act.
Notation "a ;; b" := (seqAct a b) (at level 61, right associativity) : act_scope.

Definition skip : Act := fun s => s.

Definition setView (v : AppView) : Act := fun s =>
  mkAppState v (questions s) (activeQuestionId s) (config s)
    (totalAllocatedTimeMs s) (remainingTimeMs s) (isGlobalPaused s)
    (showGlobalTimerControls s) (timerIntervalRef s) (lastTickRef s)
    (effectCleanup s).

(** [setQuestions] and [setRemainingTimeMs] are used with updater functions
    in the source ([prev => ...]); the others with plain values. *)
Definition setQuestions (f : list Question -> list Question) : Act := fun s =>
  mkAppState (view s) (f (questions s)) (activeQuestionId s) (config s)
    (totalAllocatedTimeMs s) (remainingTimeMs s) (isGlobalPaused s)
    (showGlobalTimerControls s) (timerIntervalRef s) (lastTickRef s)
    (effectCleanup s).

Definition setActiveQuestionId (a : option Z) : Act := fun s =>
  mkAppState (view s) (questions s) a (config s)
    (totalAllocatedTimeMs s) (remainingTimeMs s) (isGlobalPaused s)
    (showGlobalTimerControls s) (timerIntervalRef s) (lastTickRef s)
    (effectCleanup s).

Definition setConfig (c : AppConfig) : Act := fun s =>
  mkAppState (view s) (questions s) (activeQuestionId s) c
    (totalAllocatedTimeMs s) (remainingTimeMs s) (isGlobalPaused s)
    (showGlobalTimerControls s) (timerIntervalRef s) (lastTickRef s)
    (effectCleanup s).

Definition setTotalAllocatedTimeMs (t : Z) : Act := fun s =>
  mkAppState (view s) (questions s) (activeQuestionId s) (config s)
    t (remainingTimeMs s) (isGlobalPaused s)
    (showGlobalTimerControls s) (timerIntervalRef s) (lastTickRef s)
    (effectCleanup s).

Definition setRemainingTimeMs (f : Z -> Z) : Act := fun s =>
  mkAppState (view s) (questions s) (activeQuestionId s) (config s)
    (totalAllocatedTimeMs s) (f (remainingTimeMs s)) (isGlobalPaused s)
    (showGlobalTimerControls s) (timerIntervalRef s) (lastTickRef s)
    (effectCleanup s).

Definition setIsGlobalPaused (b : bool) : Act := fun s =>
  mkAppState (view s) (questions s) (activeQuestionId s) (config s)
    (totalAllocatedTimeMs s) (remainingTimeMs s) b
    (showGlobalTimerControls s) (timerIntervalRef s) (lastTickRef s)
    (effectCleanup s).

Definition setShowGlobalTimerControls (b : bool) : Act := fun s =>
  mkAppState (view s) (questions s) (activeQuestionId s) (config s)
    (totalAllocatedTimeMs s) (remainingTimeMs s) (isGlobalPaused s)
    b (timerIntervalRef s) (lastTickRef s)
    (effectCleanup s).

(** Assignments to [timerIntervalRef.current] and [lastTickRef.current]. *)
Definition setTimerIntervalRef (i : option Interval) : Act := fun s =>
  mkAppState (view s) (questions s) (activeQuestionId s) (config s)
    (totalAllocatedTimeMs s) (remainingTimeMs s) (isGlobalPaused s)
    (showGlobalTimerControls s) i (lastTickRef s)
    (effectCleanup s).

Definition setLastTickRef (t : Z) : Act := fun s =>
  mkAppState (view s) (questions s) (activeQuestionId s) (config s)
    (totalAllocatedTimeMs s) (remainingTimeMs s) (isGlobalPaused s)
    (showGlobalTimerControls s) (timerIntervalRef s) t
    (effectCleanup s).

Definition setEffectCleanup (b : bool) : Act := fun s =>
  mkAppState (view s) (questions s) (activeQuestionId s) (config s)
    (totalAllocatedTimeMs s) (remainingTimeMs s) (isGlobalPaused s)
    (showGlobalTimerControls s) (timerIntervalRef s) (lastTickRef s)
    b.

(** The state of the component when it is mounted: the initial values of the
    [useState] and [useRef] calls. *)
Definition initialState : AppState :=
  {| view := SETUP;
     questions := [];
     activeQuestionId := None;
     config := DEFAULT_CONFIG;
     totalAllocatedTimeMs := 0;
     remainingTimeMs := 0;
     isGlobalPaused := false;
     showGlobalTimerControls := false;
     timerIntervalRef := None;
     lastTickRef := 0;
     effectCleanup := false |}.

Local Open Scope act_scope.

(** [Array.from({ length: count }, (_, i) => ({ id: i + 1, ... }))];
    a negative [count] gives the empty array. *)
Definition newQuestions (count : Z) : list Question :=
  map (fun i : nat =>
         {| id := Z.of_nat i + 1;
            status := NOT_STARTED;
            timeSpentMs := 0;
            wasSkipped := false |})
      (seq 0 (Z.to_nat count)).

(** [count * newConfig.idealTimePerQuestionMin * 60 * 1000], in doubles and
    from left to right. *)
Definition allocatedProduct (count : Z) (newConfig : AppConfig)
    : SpecFloat.spec_float :=
  Double.mul
    (Double.mul
       (Double.mul (Double.ofZ count)
                   (Double.ofQ (idealTimePerQuestionMin newConfig)))
       (Double.ofZ 60))
    (Double.ofZ 1000).

(** [Math.floor(count * newConfig.idealTimePerQuestionMin * 60 * 1000)].
    [Math.floor] of a NaN or infinite product is that value itself, which
    the integer cells of the model cannot hold: 0 stands in for it. *)
Definition allocatedMs (count : Z) (newConfig : AppConfig) : Z :=
  match Double.floor (allocatedProduct count newConfig) with
  | Some ms => ms
  | None => 0
  end.

Definition handleStartSession (count : Z) (newConfig : AppConfig) : Act :=
  setConfig newConfig ;;
  setQuestions (fun _ => newQuestions count) ;;
  setTotalAllocatedTimeMs (allocatedMs count newConfig) ;;
  setRemainingTimeMs (fun _ => allocatedMs count newConfig) ;;
  setIsGlobalPaused false ;;
  setView TRACKER.

(** The test of the interval callback's [map]:
    [q.id === activeQuestionId && q.status === QuestionStatus.ACTIVE]. *)
Definition accrues (a : Z) (q : Question) : bool :=
  (id q =? a) && QuestionStatus_eqb (status q) ACTIVE.

Definition accrue (a : Z) (delta : Z) (q : Question) : Question :=
  if accrues a q then with_timeSpentMs (timeSpentMs q + delta) q else q.

(** The body of the [setInterval] callback; [iv] carries the
    [activeQuestionId] the callback closed over. *)
Definition intervalCallback (iv : Interval) (now : Z) : Act := fun s =>
  let delta := now - lastTickRef s in
  (setLastTickRef now ;;
   setRemainingTimeMs (fun prev => prev - delta) ;;
   match capturedActiveQuestionId iv with
   | Some a => setQuestions (map (accrue a delta))
   | None => skip
   end) s.

(** The cleanup function returned by the timer effect. *)
Definition timerCleanup : Act := fun s =>
  match timerIntervalRef s with
  | Some _ => setTimerIntervalRef None s
  | None => s
  end.

(** The body of the timer effect.  The first branch returns no cleanup, the
    second one does. *)
Definition timerEffect (now : Z) : Act := fun s =>
  if negb (AppView_eqb (view s) TRACKER) || isGlobalPaused s then
    (timerCleanup ;; setEffectCleanup false) s
  else
    (match timerIntervalRef s with
     | None =>
         setLastTickRef now ;;
         setTimerIntervalRef (Some (mkInterval (activeQuestionId s)))
     | Some _ => skip
     end ;;
     setEffectCleanup true) s.

(** The map callback of [updateQuestionStatus]: it returns the new record
    and, for a record with the requested id, also assigns
    [activeQuestionId] and [lastTickRef]. *)
Definition updateOne (id0 : Z) (newStatus : QuestionStatus) (now : Z)
    (q : Question) : Question * Act :=
  if negb (id q =? id0) then (q, skip)
  else
    let updatedQ := with_status newStatus q in
    match newStatus with
    | ACTIVE =>
        (updatedQ, setActiveQuestionId (Some id0) ;; setLastTickRef now)
    | SKIPPED =>
        (with_wasSkipped true updatedQ, setActiveQuestionId None)
    | COMPLETED =>
        (updatedQ, setActiveQuestionId None)
    | _ => (updatedQ, skip)
    end.

(** [prev.map(q => ...)] with the callback's assignments performed in array
    order. *)
Fixpoint mapWithEffects (f : Question -> Question * Act)
    (qs : list Question) (s : AppState) : list Question * AppState :=
  match qs with
  | [] => ([], s)
  | q :: rest =>
      let '(q', eff) := f q in
      let '(rest', s') := mapWithEffects f rest (eff s) in
      (q' :: rest', s')
  end.

Definition updateQuestionStatus (id0 : Z) (newStatus : QuestionStatus)
    (now : Z) : Act := fun s =>
  let '(qs', s') := mapWithEffects (updateOne id0 newStatus now) (questions s) s in
  setQuestions (fun _ => qs') s'.

Definition handleFinishSession : Act :=
  setActiveQuestionId None ;;
  setIsGlobalPaused true ;;
  setView ANALYTICS.

Definition handleRestart : Act :=
  setView SETUP ;;
  setQuestions (fun _ => []) ;;
  setActiveQuestionId None ;;
  setRemainingTimeMs (fun _ => 0) ;;
  setIsGlobalPaused false.

(** The props handed to [GlobalTimerControls]. *)
Definition onPause : Act := setIsGlobalPaused true.

Definition onResume (now : Z) : Act :=
  setIsGlobalPaused false ;;
  setLastTickRef now.

Definition onClose : Act := setShowGlobalTimerControls false.

Definition onOpenTimerControls : Act := setShowGlobalTimerControls true.

(** *** Events and the render/commit cycle *)

Inductive Event : Set :=
| StartSession (count : Z) (newConfig : AppConfig)
| Tick (now : Z)
| UpdateStatus (id0 : Z) (newStatus : QuestionStatus) (now : Z)
| FinishSession
| Restart
| PauseGlobal
| ResumeGlobal (now : Z)
| OpenTimerControls
| CloseTimerControls.

(** The interval callback runs only while an interval is registered. *)
Definition handle (e : Event) : Act := fun s =>
  match e with
  | StartSession count newConfig => handleStartSession count newConfig s
  | Tick now =>
      match timerIntervalRef s with
      | Some iv => intervalCallback iv now s
      | None => s
      end
  | UpdateStatus id0 newStatus now => updateQuestionStatus id0 newStatus now s
  | FinishSession => handleFinishSession s
  | Restart => handleRestart s
  | PauseGlobal => onPause s
  | ResumeGlobal now => onResume now s
  | OpenTimerControls => onOpenTimerControls s
  | CloseTimerControls => onClose s
  end.

Definition option_Z_eqb (a b : option Z) : bool :=
  match a, b with
  | Some x, Some y => x =? y
  | None, None => true
  | _, _ => false
  end.

(** The dependency array [[view, isGlobalPaused, activeQuestionId]]. *)
Definition depsUnchanged (old new : AppState) : bool :=
  AppView_eqb (view old) (view new)
  && Bool.eqb (isGlobalPaused old) (isGlobalPaused new)
  && option_Z_eqb (activeQuestionId old) (activeQuestionId new).

(** After the render that follows a handler: when a dependency changed, the
    cleanup of the previous run (if it returned one) and then the effect run
    again, at time [now]. *)
Definition commit (old : AppState) (now : Z) : Act := fun new =>
  if depsUnchanged old new then new
  else
    ((if effectCleanup new then timerCleanup else skip) ;; timerEffect now) new.

(** One event: the handler, then the commit at time [tc]. *)
Definition step (s : AppState) (e : Event) (tc : Z) : AppState :=
  commit s tc (handle e s).

Fixpoint run (s : AppState) (es : list (Event * Z)) : AppState :=
  match es with
  | [] => s
  | (e, tc) :: rest => run (step s e tc) rest
  end.

(** States the component can be in: from the mounted state, by any sequence
    of events. *)
Inductive reachable : AppState -> Prop :=
| reachable_init : reachable initialState
| reachable_step s e tc : reachable s -> reachable (step s e tc).

(** *** What the components offer to the user

    [SetupScreen.handleSubmit], the buttons of [ControlOverlay.renderButtons]
    for the question selected in [TrackerGrid], and the views in which each
    component is rendered. *)

(** [questions.find(q => q.id === selectedQuestionId)] *)
Definition findQuestion (id0 : Z) (qs : list Question) : option Question :=
  find (fun q => id q =? id0) qs.

(** The buttons shown for a question of status [st] and the status each of
    them requests. *)
Definition buttonOffers (st newStatus : QuestionStatus) : bool :=
  match st, newStatus with
  | NOT_STARTED, ACTIVE => true   (* Start Timer *)
  | ACTIVE, PAUSED => true        (* Pause *)
  | PAUSED, ACTIVE => true        (* Resume Pause *)
  | SKIPPED, ACTIVE => true       (* Resume Skip *)
  | ACTIVE, COMPLETED | PAUSED, COMPLETED | SKIPPED, COMPLETED => true
                                  (* Stop & Complete *)
  | ACTIVE, SKIPPED | PAUSED, SKIPPED => true
                                  (* Skip Question *)
  | _, _ => false
  end.

(** [GlobalTimerControls] renders nothing unless [isOpen]; when open it
    shows Pause while the clock is not paused and Resume while it is, and
    [onClose] on the backdrop and on the close button.  Here its three
    callbacks are offered whenever the overlay is open, which includes
    every call the component can make. *)
Definition uiOffers (s : AppState) (e : Event) : bool :=
  match e with
  | StartSession count _ =>
      AppView_eqb (view s) SETUP && (0 <? count) && (count <=? 200)
  | Tick _ => true
  | UpdateStatus id0 newStatus _ =>
      AppView_eqb (view s) TRACKER &&
      match findQuestion id0 (questions s) with
      | Some q => buttonOffers (status q) newStatus
      | None => false
      end
  | FinishSession => AppView_eqb (view s) TRACKER
  | Restart => AppView_eqb (view s) ANALYTICS
  | OpenTimerControls => AppView_eqb (view s) TRACKER
  | PauseGlobal | ResumeGlobal _ | CloseTimerControls =>
      showGlobalTimerControls s
  end.

(** A run in which every event is one the interface offers. *)
Fixpoint runUI (s : AppState) (es : list (Event * Z)) : option AppState :=
  match es with
  | [] => Some s
  | (e, tc) :: rest =>
      if uiOffers s e then runUI (step s e tc) rest else None
  end.

(** *** Vocabulary of the properties *)

Definition countStatus (st : QuestionStatus) (qs : list Question) : nat :=
  length (filter (fun q => QuestionStatus_eqb (status q) st) qs).

(** The record is the one the clock credits: it is referenced by
    [activeQuestionId] and its status is ACTIVE. *)
Definition linked (s : AppState) (q : Question) : bool :=
  match activeQuestionId s with
  | Some a => accrues a q
  | None => false
  end.

(** The condition under which the timer effect keeps an interval. *)
Definition running (s : AppState) : bool :=
  AppView_eqb (view s) TRACKER && negb (isGlobalPaused s).

Definition hasId (id0 : Z) (q : Question) : bool := id q =? id0.

(** The record part and the assignment part of [updateOne], separated. *)
Definition updatedRecord (id0 : Z) (newStatus : QuestionStatus)
    (q : Question) : Question :=
  if hasId id0 q then
    match newStatus with
    | SKIPPED => with_wasSkipped true (with_status newStatus q)
    | _ => with_status newStatus q
    end
  else q.

Definition statusEffect (id0 : Z) (newStatus : QuestionStatus) (now : Z)
    : Act :=
  match newStatus with
  | ACTIVE => setActiveQuestionId (Some id0) ;; setLastTickRef now
  | SKIPPED | COMPLETED => setActiveQuestionId None
  | _ => skip
  end.

(** Events that neither create nor discard the registry. *)
Definition withinSession (e : Event) : bool :=
  match e with
  | StartSession _ _ | Restart => false
  | _ => true
  end.

(** What holds of the registry and of the refs in every reachable state. *)
Record Inv (s : AppState) : Prop := mkInv {
  inv_ids : NoDup (map id (questions s));
  inv_interval :
    timerIntervalRef s =
    if running s then Some (mkInterval (activeQuestionId s)) else None;
  inv_cleanup : effectCleanup s = running s
}.

(** *** Concrete sessions *)

Definition configWithIdeal (m : Q) : AppConfig :=
  {| range1Limit := range1Limit DEFAULT_CONFIG;
     range2Lower := range2Lower DEFAULT_CONFIG;
     range2Upper := range2Upper DEFAULT_CONFIG;
     range3Limit := range3Limit DEFAULT_CONFIG;
     longQuestionThresholdMin := longQuestionThresholdMin DEFAULT_CONFIG;
     idealTimePerQuestionMin := m;
     subject := subject DEFAULT_CONFIG |}.

(** Three questions, two minutes each, started at time 0. *)
Definition session3 : AppState :=
  step initialState (StartSession 3 (configWithIdeal 2)) 0.

(** Question 1 of that session is started at time 0. *)
Definition question1Running : AppState :=
  step session3 (UpdateStatus 1 ACTIVE 0) 0.

(** That session with the global clock paused. *)
Definition question1Paused : AppState := step question1Running PauseGlobal 500.

(** Question 1 of that session, started, skipped and completed. *)
Definition question1Completed : AppState :=
  run question1Running
    [ (UpdateStatus 1 SKIPPED 100, 100); (UpdateStatus 1 COMPLETED 200, 200) ].

(** Question 1 is started; then question 2 is started as well. *)
Definition twoActiveTrace : list (Event * Z) :=
  [ (StartSession 3 (configWithIdeal 2), 0);
    (UpdateStatus 1 ACTIVE 10, 10);
    (UpdateStatus 2 ACTIVE 20, 20) ].

Definition twoActiveState : AppState := run initialState twoActiveTrace.



(** Question 1 is started and paused, question 2 is started, runs and is
    completed, and question 1 is resumed: every activation finds no other
    question ACTIVE. *)
Definition disciplinedTrace : list (Event * Z) :=
  [ (StartSession 3 (configWithIdeal 2), 0);
    (UpdateStatus 1 ACTIVE 0, 0);
    (Tick 100, 100);
    (UpdateStatus 1 PAUSED 150, 150);
    (UpdateStatus 2 ACTIVE 200, 200);
    (Tick 300, 300);
    (UpdateStatus 2 COMPLETED 350, 350);
    (UpdateStatus 1 ACTIVE 400, 400) ].

(** Ticks at the given instants. *)
Definition ticks (ts : list Z) : list (Event * Z) :=
  map (fun t => (Tick t, t)) ts.

(** Record 1 is started at 0 and accrues 1000 ms in ten ticks, is skipped,
    is resumed at 5000 and accrues 2000 ms in two ticks, and is completed. *)
Definition skipResumeTrace1 : list (Event * Z) :=
  [ (StartSession 3 (configWithIdeal 2), 0);
    (UpdateStatus 1 ACTIVE 0, 0) ]
  ++ ticks [100; 200; 300; 400; 500; 600; 700; 800; 900; 1000]
  ++ [ (UpdateStatus 1 SKIPPED 1000, 1000) ].

(** What a tick of measured length [delta] does to a record in state [s]. *)
Definition credit (s : AppState) (delta : Z) (q : Question) : Question :=
  if linked s q then with_timeSpentMs (timeSpentMs q + delta) q else q.

(** The registry holds at most one record of status ACTIVE. *)
Definition atMostOneActive (s : AppState) : Prop :=
  (countStatus ACTIVE (questions s) <= 1)%nat.


(** A record as a new session creates it. *)
Definition fresh (q : Question) : Prop :=
  status q = NOT_STARTED /\ timeSpentMs q = 0 /\ wasSkipped q = false.

(** The caller contract of the status machine: ACTIVE is requested for a
    record only when no record with another id is ACTIVE. *)
Definition keepsContract (s : AppState) (e : Event) : bool :=
  match e with
  | UpdateStatus id0 ACTIVE _ =>
      forallb (fun q => negb (QuestionStatus_eqb (status q) ACTIVE)
                        || (id q =? id0))
              (questions s)
  | _ => true
  end.

Fixpoint allKeepContract (s : AppState) (es : list (Event * Z)) : bool :=
  match es with
  | [] => true
  | (e, tc) :: rest => keepsContract s e && allKeepContract (step s e tc) rest
  end.

Definition isTick (e : Event) : bool :=
  match e with
  | Tick _ => true
  | _ => false
  end.

Definition skipResumeTrace2 : list (Event * Z) :=
  [ (UpdateStatus 1 ACTIVE 5000, 5000) ]
  ++ ticks [6000; 7000]
  ++ [ (UpdateStatus 1 COMPLETED 7000, 7000) ].

End App.

(** ** Time displays: [formatGlobalTime] of src/App.tsx, [formatTime] of
    [TrackerGrid] ([formatTimeBig] of [ControlOverlay] has the same body) and
    [formatTime] of [AnalyticsDashboard] *)

Module Format.

Import Stdlib.Strings.Ascii Stdlib.Strings.String.

(** [n.toString()] for an integer [n] (decimal digits, a leading minus sign
    for a negative one), as JavaScript prints integers below 10^21. *)
Definition toString (n : Z) : string :=
  DecimalString.NilZero.string_of_int (Z.to_int n).

(** [s.padStart(targetLength, c)] for a one-character pad string. *)
Definition padStart (targetLength : nat) (c : ascii) (s : string) : string :=
  (String.concat "" (repeat (String c "") (targetLength - String.length s))
   ++ s)%string.

(** src/App.tsx, [formatGlobalTime]. *)
Definition formatGlobalTime (ms : Z) : string :=
  let isNegative := ms <? 0 in
  let absMs := Z.abs ms in
  let totalSeconds := absMs / 1000 in
  let m := totalSeconds / 60 in
  let s := totalSeconds mod 60 in
  ((if isNegative then "-" else "")
   ++ padStart 2 "0" (toString m) ++ ":" ++ padStart 2 "0" (toString s))%string.

(** [TrackerGrid], [formatTime]: no absolute value; [Math.floor] rounds
    towards minus infinity and [%] takes the sign of the dividend. *)
Definition formatTime (ms : Z) : string :=
  let totalSeconds := ms / 1000 in
  let m := totalSeconds / 60 in
  let s := Z.rem totalSeconds 60 in
  (padStart 2 "0" (toString m) ++ ":" ++ padStart 2 "0" (toString s))%string.

(** [AnalyticsDashboard], [formatTime]. *)
Definition formatTimeAnalytics (ms : Z) : string :=
  let totalSeconds := Z.abs ms / 1000 in
  let m := totalSeconds / 60 in
  let s := totalSeconds mod 60 in
  (toString m ++ "m " ++ toString s ++ "s")%string.

End Format.

(** ** The computations of [AnalyticsDashboard] *)

Module Analytics.

(** [a < b] and [a <= b] on numbers. *)
Definition ltb (a b : Q) : bool := negb (Qle_bool b a).
Definition leb (a b : Q) : bool := Qle_bool a b.

(** [minutes * 60 * 1000], taken exactly: the source rounds each product to
    a double, which can move a value that lies on a boundary but changes
    neither the order of the thresholds nor the counts' relations. *)
Definition minutesMs (minutes : Q) : Q := minutes * 60 * 1000.

Definition RANGE_1_MS (config : AppConfig) : Q := minutesMs (range1Limit config).
Definition RANGE_2_LOWER_MS (config : AppConfig) : Q :=
  minutesMs (range2Lower config).
Definition RANGE_2_UPPER_MS (config : AppConfig) : Q :=
  minutesMs (range2Upper config).
Definition RANGE_3_MS (config : AppConfig) : Q := minutesMs (range3Limit config).
Definition LONG_QUESTION_THRESHOLD_MS (config : AppConfig) : Q :=
  minutesMs (longQuestionThresholdMin config).

Definition totalQuestions (questions : list Question) : nat := length questions.

(** [questions.reduce((acc, q) => acc + q.timeSpentMs, 0)] *)
Definition totalTimeSpentMs (questions : list Question) : Z :=
  fold_left (fun acc q => acc + timeSpentMs q) questions 0.

Definition timeDifferenceMs (questions : list Question) (idealTimeMs : Z) : Z :=
  idealTimeMs - totalTimeSpentMs questions.

Definition isUnderBudget (questions : list Question) (idealTimeMs : Z) : bool :=
  0 <=? timeDifferenceMs questions idealTimeMs.

Definition longQuestions (config : AppConfig) (questions : list Question)
    : list Question :=
  filter (fun q => leb (LONG_QUESTION_THRESHOLD_MS config)
                       (inject_Z (timeSpentMs q))) questions.

Definition skippedLongQuestions (config : AppConfig)
    (questions : list Question) : list Question :=
  filter (fun q => QuestionStatus_eqb (status q) SKIPPED)
         (longQuestions config questions).

Definition answeredLongQuestions (config : AppConfig)
    (questions : list Question) : list Question :=
  filter (fun q => QuestionStatus_eqb (status q) COMPLETED)
         (longQuestions config questions).

Definition finishedQuestions (questions : list Question) : list Question :=
  filter (fun q => QuestionStatus_eqb (status q) COMPLETED
                   || QuestionStatus_eqb (status q) SKIPPED) questions.

Definition totalFinished (questions : list Question) : nat :=
  length (finishedQuestions questions).

Definition underRange1 (config : AppConfig) (questions : list Question) : nat :=
  length (filter (fun q => ltb (inject_Z (timeSpentMs q)) (RANGE_1_MS config))
                 (finishedQuestions questions)).

Definition range2 (config : AppConfig) (questions : list Question) : nat :=
  length (filter (fun q => leb (RANGE_2_LOWER_MS config) (inject_Z (timeSpentMs q))
                           && leb (inject_Z (timeSpentMs q))
                                  (RANGE_2_UPPER_MS config))
                 (finishedQuestions questions)).

Definition overRange3 (config : AppConfig) (questions : list Question) : nat :=
  length (filter (fun q => ltb (RANGE_3_MS config) (inject_Z (timeSpentMs q)))
                 (finishedQuestions questions)).

Definition greenCount (questions : list Question) : nat :=
  length (filter (fun q => QuestionStatus_eqb (status q) COMPLETED
                           && negb (wasSkipped q)) questions).

Definition orangeCount (questions : list Question) : nat :=
  length (filter (fun q => QuestionStatus_eqb (status q) COMPLETED
                           && wasSkipped q) questions).

Definition blueCount (questions : list Question) : nat :=
  length (filter (fun q => QuestionStatus_eqb (status q) SKIPPED) questions).

(** [totalQuestions - (greenCount + orangeCount + blueCount)], a subtraction
    of numbers. *)
Definition grayCount (questions : list Question) : Z :=
  Z.of_nat (totalQuestions questions)
  - (Z.of_nat (greenCount questions) + Z.of_nat (orangeCount questions)
     + Z.of_nat (blueCount questions)).

(** The review marks of the long questions. *)
Record ReviewState : Set := mkReviewState {
  isCorrect : bool;
  isHard : bool
}.

Inductive ReviewField : Set := IsCorrect | IsHard.

(** [Record<number, ReviewState>]: an object used as a map from question ids
    to marks; [reviewData[id]] is [undefined] for an absent id. *)
Definition ReviewData : Type := Z -> option ReviewState.

(** [useState<Record<number, ReviewState>>({})] *)
Definition emptyReviewData : ReviewData := fun _ => None.

(** [reviewData[id]?.isCorrect] and [reviewData[id]?.isHard] where a boolean
    is expected: [undefined] counts as false. *)
Definition markedCorrect (reviewData : ReviewData) (id0 : Z) : bool :=
  match reviewData id0 with
  | Some r => isCorrect r
  | None => false
  end.

Definition markedHard (reviewData : ReviewData) (id0 : Z) : bool :=
  match reviewData id0 with
  | Some r => isHard r
  | None => false
  end.

Definition marked (field : ReviewField) (reviewData : ReviewData) (id0 : Z)
    : bool :=
  match field with
  | IsCorrect => markedCorrect reviewData id0
  | IsHard => markedHard reviewData id0
  end.

(** The updater of [toggleReviewState]: the entry of [id0] is rebuilt from
    the previous flags, with [field] negated. *)
Definition toggleReviewState (id0 : Z) (field : ReviewField)
    (prev : ReviewData) : ReviewData :=
  fun k =>
    if k =? id0 then
      Some match field with
           | IsCorrect =>
               {| isCorrect := negb (markedCorrect prev id0);
                  isHard := markedHard prev id0 |}
           | IsHard =>
               {| isCorrect := markedCorrect prev id0;
                  isHard := negb (markedHard prev id0) |}
           end
    else prev k.

(** The counts of [calculateFinalMetrics]. *)
Record FinalCounts : Set := mkFinalCounts {
  hardMarkedCount : nat;
  totalLongCount : nat;
  correctAndHardCount : nat;
  longSkippedCount : nat;
  metricsTotalQuestions : nat;
  correctAnsweredLongCount : nat;
  answeredLongCount : nat
}.

Definition calculateFinalMetrics (config : AppConfig)
    (questions : list Question) (reviewData : ReviewData) : FinalCounts :=
  {| hardMarkedCount :=
       length (filter (fun q => markedHard reviewData (id q))
                      (longQuestions config questions));
     totalLongCount := length (longQuestions config questions);
     correctAndHardCount :=
       length (filter (fun q => markedHard reviewData (id q)
                                && markedCorrect reviewData (id q))
                      (longQuestions config questions));
     longSkippedCount := length (skippedLongQuestions config questions);
     metricsTotalQuestions := totalQuestions questions;
     correctAnsweredLongCount :=
       length (filter (fun q => markedCorrect reviewData (id q))
                      (answeredLongQuestions config questions));
     answeredLongCount := length (answeredLongQuestions config questions) |}.

(** The questions that are neither completed nor skipped. *)
Definition incomplete (q : Question) : bool :=
  match status q with
  | NOT_STARTED | ACTIVE | PAUSED => true
  | SKIPPED | COMPLETED => false
  end.

End Analytics.

(** ** Runs through the interface, and runs in which time moves forward *)

Module Runs.

Import App.

(** States the user can bring the mounted component to. *)
Definition uiReachable (s : AppState) : Prop :=
  exists es, runUI initialState es = Some s.

(** What holds of the registry in every state the interface leads to. *)
Record UIInv (s : AppState) : Prop := mkUIInv {
  ui_setup :
    view s = SETUP -> questions s = [] /\ activeQuestionId s = None;
  ui_size :
    view s <> SETUP ->
    (1 <= length (questions s) <= 200)%nat;
  ui_not_started :
    forall q, In q (questions s) -> status q = NOT_STARTED ->
              timeSpentMs q = 0 /\ wasSkipped q = false
}.

(** The timer callback does not see the clock behind its last reading. *)
Definition tickForward (s : AppState) (e : Event) : bool :=
  match e with
  | Tick now => lastTickRef s <=? now
  | _ => true
  end.

Fixpoint allForward (s : AppState) (es : list (Event * Z)) : bool :=
  match es with
  | [] => true
  | (e, tc) :: rest => tickForward s e && allForward (step s e tc) rest
  end.

(** The sum of the accumulated times, by recursion on the registry. *)
Fixpoint sumTimeSpentMs (qs : list Question) : Z :=
  match qs with
  | [] => 0
  | q :: rest => timeSpentMs q + sumTimeSpentMs rest
  end.

(** A finished session of three questions: the first completed after 90 s,
    the second skipped after 150 s, the third never started. *)
Definition finishedSessionTrace : list (Event * Z) :=
  [ (StartSession 3 (configWithIdeal 2), 0);
    (UpdateStatus 1 ACTIVE 0, 0);
    (Tick 90000, 90000);
    (UpdateStatus 1 COMPLETED 90000, 90000);
    (UpdateStatus 2 ACTIVE 90000, 90000);
    (Tick 240000, 240000);
    (UpdateStatus 2 SKIPPED 240000, 240000);
    (FinishSession, 240000) ].

Definition finishedSession : AppState := run initialState finishedSessionTrace.

End Runs.

Import App.

(** ** Basic facts about the embedding *)

Section Equalities.

Lemma QuestionStatus_eqb_eq (a b : QuestionStatus) :
  QuestionStatus_eqb a b = true <-> a = b.
Proof. destruct a, b; simpl; split; congruence. Qed.

Lemma AppView_eqb_eq (a b : AppView) : AppView_eqb a b = true <-> a = b.
Proof. destruct a, b; simpl; split; congruence. Qed.

Lemma option_Z_eqb_eq (a b : option Z) : option_Z_eqb a b = true <-> a = b.
Proof.
  destruct a as [x|], b as [y|]; simpl; try (split; congruence).
  rewrite Z.eqb_eq. split; congruence.
Qed.

Lemma depsUnchanged_eq (old new : AppState) :
  depsUnchanged old new = true ->
  view old = view new /\
  isGlobalPaused old = isGlobalPaused new /\
  activeQuestionId old = activeQuestionId new.
Proof.
  unfold depsUnchanged. rewrite !andb_true_iff.
  intros [[Hv Hp] Ha].
  apply AppView_eqb_eq in Hv. apply Bool.eqb_prop in Hp.
  apply option_Z_eqb_eq in Ha. auto.
Qed.

Lemma depsUnchanged_fields (old new : AppState) :
  view old = view new ->
  isGlobalPaused old = isGlobalPaused new ->
  activeQuestionId old = activeQuestionId new ->
  depsUnchanged old new = true.
Proof.
  intros Hv Hp Ha.
  unfold depsUnchanged. rewrite !andb_true_iff. repeat split.
  - now apply AppView_eqb_eq.
  - rewrite Hp. apply Bool.eqb_reflx.
  - now apply option_Z_eqb_eq.
Qed.

Lemma depsUnchanged_refl (s : AppState) : depsUnchanged s s = true.
Proof. now apply depsUnchanged_fields. Qed.

Lemma accrues_spec (a : Z) (q : Question) :
  accrues a q = true <-> id q = a /\ status q = ACTIVE.
Proof.
  unfold accrues. now rewrite andb_true_iff, Z.eqb_eq, QuestionStatus_eqb_eq.
Qed.

End Equalities.

(** ** The status transition as a map and one assignment *)

Section UpdateQuestionStatus.

Variables (id0 : Z) (newStatus : QuestionStatus) (now : Z).

Lemma updateOne_split (q : Question) :
  updateOne id0 newStatus now q =
  (updatedRecord id0 newStatus q,
   if hasId id0 q then statusEffect id0 newStatus now else skip).
Proof.
  unfold updateOne, updatedRecord, statusEffect, hasId.
  destruct (id q =? id0); simpl; [destruct newStatus|]; reflexivity.
Qed.

Lemma statusEffect_idem (s : AppState) :
  statusEffect id0 newStatus now (statusEffect id0 newStatus now s) =
  statusEffect id0 newStatus now s.
Proof. destruct newStatus; reflexivity. Qed.

Lemma mapWithEffects_updateOne (qs : list Question) :
  forall s,
    mapWithEffects (updateOne id0 newStatus now) qs s =
    (map (updatedRecord id0 newStatus) qs,
     if existsb (hasId id0) qs then statusEffect id0 newStatus now s else s).
Proof.
  induction qs as [|q rest IH]; intros s; simpl; [reflexivity|].
  rewrite updateOne_split.
  destruct (hasId id0 q); simpl; rewrite IH.
  - destruct (existsb (hasId id0) rest); [rewrite statusEffect_idem|]; reflexivity.
  - reflexivity.
Qed.

Lemma updateQuestionStatus_eq (s : AppState) :
  updateQuestionStatus id0 newStatus now s =
  setQuestions (fun _ => map (updatedRecord id0 newStatus) (questions s))
    (if existsb (hasId id0) (questions s)
     then statusEffect id0 newStatus now s else s).
Proof.
  unfold updateQuestionStatus. now rewrite mapWithEffects_updateOne.
Qed.

Lemma updatedRecord_id (q : Question) :
  id (updatedRecord id0 newStatus q) = id q.
Proof.
  unfold updatedRecord. destruct (hasId id0 q); [destruct newStatus|]; reflexivity.
Qed.

Lemma updatedRecord_timeSpentMs (q : Question) :
  timeSpentMs (updatedRecord id0 newStatus q) = timeSpentMs q.
Proof.
  unfold updatedRecord. destruct (hasId id0 q); [destruct newStatus|]; reflexivity.
Qed.

Lemma map_updatedRecord_absent (qs : list Question) :
  existsb (hasId id0) qs = false ->
  map (updatedRecord id0 newStatus) qs = qs.
Proof.
  induction qs as [|q rest IH]; simpl; [reflexivity|].
  rewrite orb_false_iff. intros [Hq Hrest].
  unfold updatedRecord at 1. rewrite Hq. now rewrite IH.
Qed.

End UpdateQuestionStatus.

Lemma accrue_id (a delta : Z) (q : Question) : id (accrue a delta q) = id q.
Proof. unfold accrue. now destruct (accrues a q). Qed.

Lemma accrue_wasSkipped (a delta : Z) (q : Question) :
  wasSkipped (accrue a delta q) = wasSkipped q.
Proof. unfold accrue. now destruct (accrues a q). Qed.

Lemma accrue_status (a delta : Z) (q : Question) :
  status (accrue a delta q) = status q.
Proof. unfold accrue. now destruct (accrues a q). Qed.

(** ** What the commit leaves alone *)

Ltac unfold_commit :=
  unfold commit, timerEffect, timerCleanup, seqAct, skip,
    setTimerIntervalRef, setLastTickRef, setEffectCleanup.

Ltac commit_cases old new :=
  unfold_commit;
  destruct (depsUnchanged old new);
  [ reflexivity
  | destruct new as [v qs a c tot r p sh [iv|] lt [|]];
    destruct v, p; reflexivity ].

Section Commit.

Variables (old new : AppState) (tc : Z).

Lemma commit_view : view (commit old tc new) = view new.
Proof. commit_cases old new. Qed.

Lemma commit_questions : questions (commit old tc new) = questions new.
Proof. commit_cases old new. Qed.

Lemma commit_activeQuestionId :
  activeQuestionId (commit old tc new) = activeQuestionId new.
Proof. commit_cases old new. Qed.

Lemma commit_remainingTimeMs :
  remainingTimeMs (commit old tc new) = remainingTimeMs new.
Proof. commit_cases old new. Qed.

Lemma commit_totalAllocatedTimeMs :
  totalAllocatedTimeMs (commit old tc new) = totalAllocatedTimeMs new.
Proof. commit_cases old new. Qed.

Lemma commit_isGlobalPaused :
  isGlobalPaused (commit old tc new) = isGlobalPaused new.
Proof. commit_cases old new. Qed.

Lemma commit_unchanged : depsUnchanged old new = true -> commit old tc new = new.
Proof. unfold commit. now intros ->. Qed.

End Commit.

(** ** The invariant of reachable states *)

Section Invariant.

Lemma handle_refs (e : Event) (s : AppState) :
  timerIntervalRef (handle e s) = timerIntervalRef s /\
  effectCleanup (handle e s) = effectCleanup s.
Proof.
  destruct e; simpl; try (split; reflexivity).
  - destruct (timerIntervalRef s) as [iv|] eqn:Hiv; [|now rewrite Hiv].
    unfold intervalCallback, seqAct.
    destruct (capturedActiveQuestionId iv); simpl; now rewrite Hiv.
  - rewrite updateQuestionStatus_eq.
    destruct (existsb (hasId id0) (questions s)); [|split; reflexivity].
    destruct newStatus; split; reflexivity.
Qed.

Lemma newQuestions_ids (count : Z) :
  map id (newQuestions count) =
  map (fun i : nat => Z.of_nat i + 1) (seq 0 (Z.to_nat count)).
Proof. unfold newQuestions. now rewrite map_map. Qed.

Lemma newQuestions_NoDup (count : Z) : NoDup (map id (newQuestions count)).
Proof.
  rewrite newQuestions_ids.
  apply Finite.Injective_map_NoDup; [|apply seq_NoDup].
  intros i j Hij. lia.
Qed.

Lemma handle_ids (e : Event) (s : AppState) :
  NoDup (map id (questions s)) -> NoDup (map id (questions (handle e s))).
Proof.
  intros Hs. destruct e; simpl; try exact Hs.
  - apply newQuestions_NoDup.
  - destruct (timerIntervalRef s) as [iv|]; [|exact Hs].
    unfold intervalCallback, seqAct.
    destruct (capturedActiveQuestionId iv) as [a|]; simpl; [|exact Hs].
    rewrite map_map.
    erewrite map_ext; [exact Hs|]. intros q. apply accrue_id.
  - rewrite updateQuestionStatus_eq. simpl.
    rewrite map_map.
    erewrite map_ext; [exact Hs|]. intros q. apply updatedRecord_id.
  - constructor.
Qed.

Lemma commit_refs_inv (old new : AppState) (tc : Z) :
  timerIntervalRef old =
    (if running old then Some (mkInterval (activeQuestionId old)) else None) ->
  effectCleanup old = running old ->
  timerIntervalRef new = timerIntervalRef old ->
  effectCleanup new = effectCleanup old ->
  timerIntervalRef (commit old tc new) =
    (if running (commit old tc new)
     then Some (mkInterval (activeQuestionId (commit old tc new)))
     else None) /\
  effectCleanup (commit old tc new) = running (commit old tc new).
Proof.
  intros Hi Hc Hni Hnc.
  unfold commit. destruct (depsUnchanged old new) eqn:Hdeps.
  - apply depsUnchanged_eq in Hdeps. destruct Hdeps as (Hv & Hp & Ha).
    unfold running in *. rewrite <- Hv, <- Hp, <- Ha, Hni, Hnc. auto.
  - clear Hdeps. rewrite Hc in Hnc. rewrite Hi in Hni. clear Hi Hc.
    destruct new as [v qs a c tot r p sh iv lt ec]. simpl in *. subst iv ec.
    unfold running. destruct old as [v' qs' a' c' tot' r' p' sh' iv' lt' ec'].
    simpl. destruct v', p', v, p; simpl; auto.
Qed.

Lemma step_Inv (s : AppState) (e : Event) (tc : Z) :
  Inv s -> Inv (step s e tc).
Proof.
  intros [Hids Hiv Hcl]. unfold step.
  destruct (handle_refs e s) as [Hr1 Hr2].
  destruct (commit_refs_inv s (handle e s) tc Hiv Hcl Hr1 Hr2) as [H1 H2].
  constructor; auto.
  rewrite commit_questions. now apply handle_ids.
Qed.

Lemma initialState_Inv : Inv initialState.
Proof. constructor; simpl; auto. constructor. Qed.

Lemma reachable_Inv (s : AppState) : reachable s -> Inv s.
Proof.
  induction 1 as [|s e tc Hs IH]; [apply initialState_Inv | now apply step_Inv].
Qed.

Lemma reachable_run (es : list (Event * Z)) :
  forall s, reachable s -> reachable (run s es).
Proof.
  induction es as [|[e tc] rest IH]; intros s Hs; simpl; [exact Hs|].
  apply IH. now constructor.
Qed.

Lemma runUI_run (es : list (Event * Z)) :
  forall s s', runUI s es = Some s' -> run s es = s'.
Proof.
  induction es as [|[e tc] rest IH]; intros s s'; simpl.
  - congruence.
  - destruct (uiOffers s e); [apply IH | discriminate].
Qed.

Lemma run_app (es1 es2 : list (Event * Z)) :
  forall s, run s (es1 ++ es2) = run (run s es1) es2.
Proof.
  induction es1 as [|[e tc] rest IH]; intros s; simpl; [reflexivity | apply IH].
Qed.

End Invariant.

(** ** The tick *)

Section TickFacts.

Variables (s : AppState) (now tc : Z).

Lemma intervalCallback_deps (iv : Interval) :
  depsUnchanged s (intervalCallback iv now s) = true.
Proof.
  unfold intervalCallback, seqAct.
  destruct (capturedActiveQuestionId iv); now apply depsUnchanged_fields.
Qed.

Lemma step_tick_handle : step s (Tick now) tc = handle (Tick now) s.
Proof.
  unfold step. apply commit_unchanged. simpl.
  destruct (timerIntervalRef s) as [iv|].
  - apply intervalCallback_deps.
  - apply depsUnchanged_refl.
Qed.

Lemma step_tick_idle :
  timerIntervalRef s = None -> step s (Tick now) tc = s.
Proof. intros H. rewrite step_tick_handle. simpl. now rewrite H. Qed.

Lemma intervalCallback_questions (a : option Z) :
  questions (intervalCallback (mkInterval a) now s) =
  match a with
  | Some a' => map (accrue a' (now - lastTickRef s)) (questions s)
  | None => questions s
  end.
Proof. destruct a; reflexivity. Qed.

Lemma credit_questions :
  match activeQuestionId s with
  | Some a' => map (accrue a' (now - lastTickRef s)) (questions s)
  | None => questions s
  end = map (credit s (now - lastTickRef s)) (questions s).
Proof.
  unfold credit, linked. destruct (activeQuestionId s) as [a|].
  - reflexivity.
  - now rewrite map_id.
Qed.

Hypothesis Hinv : Inv s.
Hypothesis Hrun : timerIntervalRef s <> None.

Lemma registered_interval :
  timerIntervalRef s = Some (mkInterval (activeQuestionId s)).
Proof.
  destruct Hinv as [_ Hiv _]. rewrite Hiv in Hrun |- *.
  now destruct (running s).
Qed.

Lemma step_tick_questions :
  questions (step s (Tick now) tc) =
  map (credit s (now - lastTickRef s)) (questions s).
Proof.
  rewrite step_tick_handle. simpl. rewrite registered_interval.
  rewrite intervalCallback_questions. apply credit_questions.
Qed.

Lemma step_tick_remainingTimeMs :
  remainingTimeMs (step s (Tick now) tc) =
  remainingTimeMs s - (now - lastTickRef s).
Proof.
  rewrite step_tick_handle. simpl. rewrite registered_interval.
  unfold intervalCallback, seqAct. simpl.
  now destruct (activeQuestionId s).
Qed.


End TickFacts.

Lemma interval_iff_running (s : AppState) :
  Inv s -> (timerIntervalRef s <> None <-> running s = true).
Proof.
  intros [_ Hiv _]. rewrite Hiv. destruct (running s); split; congruence.
Qed.

Lemma running_spec (s : AppState) :
  running s = true <-> view s = TRACKER /\ isGlobalPaused s = false.
Proof.
  unfold running. rewrite andb_true_iff, AppView_eqb_eq, negb_true_iff.
  reflexivity.
Qed.

(** ** The registry and the single active question *)

Section SingleActive.

Lemma step_update_other (s : AppState) (id0 : Z) (newStatus : QuestionStatus)
    (now tc : Z) (i : nat) (q : Question) :
  nth_error (questions s) i = Some q ->
  id q <> id0 ->
  nth_error (questions (step s (UpdateStatus id0 newStatus now) tc)) i = Some q.
Proof.
  intros Hq Hid. unfold step. rewrite commit_questions. simpl.
  rewrite updateQuestionStatus_eq. simpl.
  rewrite nth_error_map, Hq. simpl. f_equal.
  unfold updatedRecord, hasId.
  destruct (Z.eqb_spec (id q) id0); [contradiction | reflexivity].
Qed.

Lemma linked_id (s : AppState) (q : Question) :
  linked s q = true -> activeQuestionId s = Some (id q) /\ status q = ACTIVE.
Proof.
  unfold linked. destruct (activeQuestionId s) as [a|]; [|discriminate].
  rewrite accrues_spec. intros [-> Hst]. auto.
Qed.

Lemma NoDup_ids_index (qs : list Question) (i j : nat) (qi qj : Question) :
  NoDup (map id qs) ->
  nth_error qs i = Some qi ->
  nth_error qs j = Some qj ->
  id qi = id qj ->
  i = j.
Proof.
  intros Hnd Hi Hj Hid.
  apply (proj1 (NoDup_nth_error (map id qs)) Hnd).
  - rewrite length_map. apply nth_error_Some. congruence.
  - rewrite !nth_error_map, Hi, Hj. simpl. congruence.
Qed.

(** C1, as the claim states it, fails: after question 1 is started and then
    question 2 is started, a sequence of calls the interface offers, the
    registry holds two ACTIVE records. *)
Lemma C1_two_records_active :
  runUI initialState twoActiveTrace = Some twoActiveState /\
  reachable twoActiveState /\
  ~ atMostOneActive twoActiveState.
Proof.
  split; [vm_compute; reflexivity|]. split.
  - apply (reachable_run twoActiveTrace). constructor.
  - unfold atMostOneActive. vm_compute. lia.
Qed.

End SingleActive.

(** ** Clearing [activeQuestionId] *)

Section ClearActive.

Lemma step_update_activeQuestionId (s : AppState) (id0 : Z)
    (newStatus : QuestionStatus) (now tc : Z) :
  activeQuestionId (step s (UpdateStatus id0 newStatus now) tc) =
  if existsb (hasId id0) (questions s)
  then activeQuestionId (statusEffect id0 newStatus now s)
  else activeQuestionId s.
Proof.
  unfold step. rewrite commit_activeQuestionId. simpl.
  rewrite updateQuestionStatus_eq.
  now destruct (existsb (hasId id0) (questions s)).
Qed.




End ClearActive.

(** ** One tick of the session clock *)

Section Tick.

Lemma credit_linked (s : AppState) (delta : Z) (q : Question) (a : Z) :
  activeQuestionId s = Some a ->
  id q = a ->
  status q = ACTIVE ->
  credit s delta q = with_timeSpentMs (timeSpentMs q + delta) q.
Proof.
  intros Ha Hid Hst. unfold credit, linked. rewrite Ha.
  now rewrite (proj2 (accrues_spec a q) (conj Hid Hst)).
Qed.

Lemma credit_not_linked (s : AppState) (delta : Z) (q : Question) :
  linked s q = false -> credit s delta q = q.
Proof. unfold credit. now intros ->. Qed.

Lemma map_fixed (f : Question -> Question) (qs : list Question) :
  (forall q, In q qs -> f q = q) -> map f qs = qs.
Proof.
  intros Hf. rewrite <- (map_id qs) at 2. apply map_ext_in. exact Hf.
Qed.


Lemma question1Running_reachable : reachable question1Running.
Proof. repeat constructor. Qed.


End Tick.

(** ** Starting a session *)

Section StartSession.

Variables (s : AppState) (count : Z) (newConfig : AppConfig) (tc : Z).



Lemma start_remainingTimeMs :
  remainingTimeMs (step s (StartSession count newConfig) tc)
  = allocatedMs count newConfig.
Proof. unfold step. now rewrite commit_remainingTimeMs. Qed.

End StartSession.


Lemma newQuestions_fresh (count : Z) : Forall fresh (newQuestions count).
Proof.
  unfold newQuestions. apply Forall_map, Forall_forall.
  intros i _. repeat split.
Qed.






(** ** Frozen and cumulative accrual *)

Section Accrual.

Lemma accrue_not_active (a delta : Z) (q : Question) :
  status q <> ACTIVE -> accrue a delta q = q.
Proof.
  intros Hst. unfold accrue.
  destruct (accrues a q) eqn:Hacc; [|reflexivity].
  apply accrues_spec in Hacc. now destruct Hacc.
Qed.

Lemma step_tick_not_active (s : AppState) (now tc : Z) (i : nat)
    (q : Question) :
  nth_error (questions s) i = Some q ->
  status q <> ACTIVE ->
  nth_error (questions (step s (Tick now) tc)) i = Some q.
Proof.
  intros Hq Hst. rewrite step_tick_handle. simpl.
  destruct (timerIntervalRef s) as [[a]|]; [|exact Hq].
  rewrite intervalCallback_questions.
  destruct a as [a|]; [|exact Hq].
  rewrite nth_error_map, Hq. simpl. f_equal.
  now apply accrue_not_active.
Qed.

Lemma step_update_questions (s : AppState) (id0 : Z)
    (newStatus : QuestionStatus) (now tc : Z) :
  questions (step s (UpdateStatus id0 newStatus now) tc) =
  map (updatedRecord id0 newStatus) (questions s).
Proof.
  unfold step. rewrite commit_questions. simpl.
  now rewrite updateQuestionStatus_eq.
Qed.

(** C5: a tick leaves the [timeSpentMs] (indeed the whole record) of a
    COMPLETED or SKIPPED record unchanged; no status transition changes any
    record's [timeSpentMs], so accrual carries over a skip and a resume; and
    in the scenario record 1 accrues 1000 ms, is skipped with 1000 ms kept,
    is resumed, accrues 2000 ms more and is completed with
    [timeSpentMs = 3000] and [wasSkipped = true]. *)
Theorem C5_frozen_and_cumulative (s : AppState) (now tc : Z) (i : nat)
    (q : Question) :
  nth_error (questions s) i = Some q ->
  status q = COMPLETED \/ status q = SKIPPED ->
  nth_error (questions (step s (Tick now) tc)) i = Some q /\
  (forall id0 newStatus now' tc',
      exists q',
        nth_error (questions (step s (UpdateStatus id0 newStatus now') tc')) i
        = Some q' /\
        timeSpentMs q' = timeSpentMs q) /\
  runUI initialState skipResumeTrace1
  = Some (run initialState skipResumeTrace1) /\
  nth_error (questions (run initialState skipResumeTrace1)) 0
  = Some (mkQuestion 1 SKIPPED 1000 true) /\
  runUI (run initialState skipResumeTrace1) skipResumeTrace2
  = Some (run initialState (skipResumeTrace1 ++ skipResumeTrace2)) /\
  nth_error
    (questions (run initialState (skipResumeTrace1 ++ skipResumeTrace2))) 0
  = Some (mkQuestion 1 COMPLETED 3000 true).
Proof.
  intros Hq Hst. split.
  - apply step_tick_not_active; [exact Hq|].
    destruct Hst as [-> | ->]; discriminate.
  - split.
    + intros id0 newStatus now' tc'.
      exists (updatedRecord id0 newStatus q). split.
      * rewrite step_update_questions, nth_error_map, Hq. reflexivity.
      * apply updatedRecord_timeSpentMs.
    + split; [vm_compute; reflexivity|].
      split; [vm_compute; reflexivity|].
      split; vm_compute; reflexivity.
Qed.

Lemma C5_frozen_and_cumulative_witness :
  nth_error
    (questions (step (run initialState skipResumeTrace1) (Tick 2000) 2000)) 0
  = Some (mkQuestion 1 SKIPPED 1000 true).
Proof.
  refine (proj1 (C5_frozen_and_cumulative (run initialState skipResumeTrace1)
                   2000 2000 0 (mkQuestion 1 SKIPPED 1000 true) _ _)).
  - vm_compute. reflexivity.
  - right. reflexivity.
Defined.

End Accrual.

(** ** The paused clock *)

Section Paused.

Lemma run_ticks_idle (es : list (Event * Z)) :
  forall s,
    timerIntervalRef s = None ->
    forallb (fun p => isTick (fst p)) es = true ->
    run s es = s.
Proof.
  induction es as [|[e tc] rest IH]; intros s Hnone Hticks; simpl in *.
  - reflexivity.
  - apply andb_true_iff in Hticks. destruct Hticks as [He Hrest].
    destruct e; try discriminate.
    rewrite step_tick_idle by exact Hnone. now apply IH.
Qed.

(** C7: in every reachable state an interval is registered, so that ticks
    occur, exactly when the view is the tracker and [isGlobalPaused] is
    false; and while [isGlobalPaused] is true any number of timer events, at
    any instants, leave the state as it is: [remainingTimeMs] and every
    record are unchanged. *)
Theorem C7_paused_clock (s : AppState) (es : list (Event * Z)) :
  reachable s ->
  (timerIntervalRef s <> None <->
   view s = TRACKER /\ isGlobalPaused s = false) /\
  (isGlobalPaused s = true ->
   forallb (fun p => isTick (fst p)) es = true ->
   run s es = s /\
   remainingTimeMs (run s es) = remainingTimeMs s /\
   questions (run s es) = questions s).
Proof.
  intros Hreach. apply reachable_Inv in Hreach. split.
  - rewrite <- running_spec. now apply interval_iff_running.
  - intros Hp Hticks.
    assert (Hnone : timerIntervalRef s = None).
    { destruct Hreach as [_ Hiv _]. rewrite Hiv. unfold running.
      rewrite Hp. now rewrite andb_false_r. }
    rewrite (run_ticks_idle es s Hnone Hticks). auto.
Qed.

Lemma question1Paused_reachable : reachable question1Paused.
Proof. repeat constructor. Qed.

Lemma C7_paused_clock_witness :
  run question1Paused (ticks [600; 700; 90000]) = question1Paused /\
  remainingTimeMs (run question1Paused (ticks [600; 700; 90000]))
  = remainingTimeMs question1Paused /\
  questions (run question1Paused (ticks [600; 700; 90000]))
  = questions question1Paused.
Proof.
  refine (proj2 (C7_paused_clock question1Paused
                   (ticks [600; 700; 90000]) _) _ _).
  - apply question1Paused_reachable.
  - vm_compute. reflexivity.
  - reflexivity.
Defined.

End Paused.

(** ** Pausing and resuming the global clock *)

Section PauseResume.

Lemma credit_ext (s1 s2 : AppState) (delta : Z) (q : Question) :
  activeQuestionId s1 = activeQuestionId s2 ->
  credit s1 delta q = credit s2 delta q.
Proof. intros H. unfold credit, linked. now rewrite H. Qed.

Lemma commit_started (old new : AppState) (tc : Z) :
  depsUnchanged old new = false ->
  running new = true ->
  (effectCleanup new = false -> timerIntervalRef new = None) ->
  lastTickRef (commit old tc new) = tc.
Proof.
  intros Hdeps Hrun Hnone. unfold commit. rewrite Hdeps.
  destruct new as [v qs a c tot r p sh iv lt ec].
  unfold running in Hrun. simpl in *.
  apply andb_true_iff in Hrun. destruct Hrun as [Hv Hp].
  apply AppView_eqb_eq in Hv. apply negb_true_iff in Hp. subst v p.
  destruct ec.
  - destruct iv; reflexivity.
  - rewrite (Hnone eq_refl). reflexivity.
Qed.

Lemma paused_idle (s : AppState) :
  Inv s -> isGlobalPaused s = true -> timerIntervalRef s = None.
Proof.
  intros [_ Hiv _] Hp. rewrite Hiv. unfold running. rewrite Hp.
  now rewrite andb_false_r.
Qed.

Lemma pause_isGlobalPaused (s : AppState) (tp : Z) :
  isGlobalPaused (step s PauseGlobal tp) = true.
Proof. unfold step. now rewrite commit_isGlobalPaused. Qed.

(** The resume, from a paused state [sp] of the tracker view. *)
Variables (sp : AppState) (tr tr' : Z).

Lemma resume_questions :
  questions (step sp (ResumeGlobal tr) tr') = questions sp.
Proof. unfold step. now rewrite commit_questions. Qed.

Lemma resume_remainingTimeMs :
  remainingTimeMs (step sp (ResumeGlobal tr) tr') = remainingTimeMs sp.
Proof. unfold step. now rewrite commit_remainingTimeMs. Qed.

Lemma resume_activeQuestionId :
  activeQuestionId (step sp (ResumeGlobal tr) tr') = activeQuestionId sp.
Proof. unfold step. now rewrite commit_activeQuestionId. Qed.

Hypothesis Hinv : Inv sp.
Hypothesis Hview : view sp = TRACKER.
Hypothesis Hpaused : isGlobalPaused sp = true.

Lemma resume_running : running (step sp (ResumeGlobal tr) tr') = true.
Proof.
  apply running_spec. unfold step.
  rewrite commit_view, commit_isGlobalPaused. simpl. auto.
Qed.

Lemma resume_lastTickRef : lastTickRef (step sp (ResumeGlobal tr) tr') = tr'.
Proof.
  unfold step. apply commit_started.
  - unfold depsUnchanged. simpl. rewrite Hpaused. simpl.
    now rewrite andb_false_r.
  - apply running_spec. simpl. auto.
  - simpl. intros _. now apply paused_idle.
Qed.

End PauseResume.

(** C6: the clock is paused at any time and, whatever happens meanwhile,
    is still paused in the tracker view (state [sp]) when it is resumed at
    [tr], the effect re-running at [tr' >= tr].  While only time passed
    during the pause, budget and records are those of before the pause.  The
    resume handler sets the last-tick timestamp to [tr]; the resume credits
    nothing to the budget or to any record; and the first tick after it, at
    time [t], is measured from [tr']: it lowers [remainingTimeMs] by
    [t - tr'] and credits [t - tr'] to the linked active record only, an
    amount between 0 and [t - tr] in which the time of the pause does not
    occur. *)
Theorem C6_no_backfill (s : AppState) (tp : Z) (es : list (Event * Z))
    (tr tr' t tc : Z) :
  reachable s ->
  let sp := run (step s PauseGlobal tp) es in
  view sp = TRACKER ->
  isGlobalPaused sp = true ->
  tr <= tr' ->
  tr' <= t ->
  let s2 := step sp (ResumeGlobal tr) tr' in
  let s3 := step s2 (Tick t) tc in
  (forallb (fun p => isTick (fst p)) es = true ->
   remainingTimeMs sp = remainingTimeMs s /\ questions sp = questions s) /\
  lastTickRef (handle (ResumeGlobal tr) sp) = tr /\
  lastTickRef s2 = tr' /\
  remainingTimeMs s2 = remainingTimeMs sp /\
  questions s2 = questions sp /\
  remainingTimeMs s3 = remainingTimeMs sp - (t - tr') /\
  questions s3 = map (credit sp (t - tr')) (questions sp) /\
  0 <= t - tr' <= t - tr.
Proof.
  intros Hreach sp Hview Hpaused Hr Ht s2 s3.
  assert (Hreach1 : reachable (step s PauseGlobal tp)) by now constructor.
  assert (Hinv : Inv sp)
    by (apply reachable_Inv; unfold sp; now apply reachable_run).
  assert (Hinv2 : Inv s2) by (unfold s2; now apply step_Inv).
  assert (Hreg : timerIntervalRef s2 <> None).
  { apply interval_iff_running; [exact Hinv2|].
    now apply resume_running. }
  assert (Hlt : lastTickRef s2 = tr') by now apply resume_lastTickRef.
  split.
  { intros Hticks. unfold sp. rewrite run_ticks_idle.
    - unfold step. now rewrite commit_remainingTimeMs, commit_questions.
    - apply paused_idle; [now apply reachable_Inv|].
      apply pause_isGlobalPaused.
    - exact Hticks. }
  split; [reflexivity|].
  split; [exact Hlt|].
  split; [apply resume_remainingTimeMs|].
  split; [apply resume_questions|].
  split; [|split; [|lia]].
  - unfold s3. rewrite step_tick_remainingTimeMs by assumption.
    rewrite Hlt. unfold s2. now rewrite resume_remainingTimeMs.
  - unfold s3. rewrite step_tick_questions by assumption.
    rewrite Hlt. unfold s2. rewrite resume_questions.
    apply map_ext. intros q. apply credit_ext.
    apply resume_activeQuestionId.
Qed.

Lemma C6_no_backfill_witness :
  remainingTimeMs
    (step (step (run (step question1Running PauseGlobal 500)
                     (ticks [600; 700; 8000]))
                (ResumeGlobal 9000) 9001)
          (Tick 9100) 9100)
  = remainingTimeMs
      (run (step question1Running PauseGlobal 500) (ticks [600; 700; 8000]))
    - (9100 - 9001).
Proof.
  refine (proj1 (proj2 (proj2 (proj2 (proj2 (proj2
    (C6_no_backfill question1Running 500 (ticks [600; 700; 8000])
       9000 9001 9100 9100 _ _ _ _ _))))))).
  - apply question1Running_reachable.
  - vm_compute. reflexivity.
  - vm_compute. reflexivity.
  - lia.
  - lia.
Defined.

(** ** A transition request for an id that is not in the registry *)

Section UnknownId.

Lemma setQuestions_same (s : AppState) :
  setQuestions (fun _ => questions s) s = s.
Proof. now destruct s. Qed.

Lemma existsb_hasId_absent (id0 : Z) (qs : list Question) :
  (forall q, In q qs -> id q <> id0) -> existsb (hasId id0) qs = false.
Proof.
  intros Habs. destruct (existsb (hasId id0) qs) eqn:Hex; [|reflexivity].
  apply existsb_exists in Hex. destruct Hex as (q & Hin & Hq).
  unfold hasId in Hq. apply Z.eqb_eq in Hq. now destruct (Habs q Hin).
Qed.

(** C8: a transition request whose id is the id of no record of the registry
    leaves the whole state as it is: every record, [activeQuestionId] and the
    last-tick timestamp are unchanged. *)
Theorem C8_unknown_id_noop (s : AppState) (id0 : Z)
    (newStatus : QuestionStatus) (now tc : Z) :
  (forall q, In q (questions s) -> id q <> id0) ->
  step s (UpdateStatus id0 newStatus now) tc = s /\
  questions (step s (UpdateStatus id0 newStatus now) tc) = questions s /\
  activeQuestionId (step s (UpdateStatus id0 newStatus now) tc)
  = activeQuestionId s /\
  lastTickRef (step s (UpdateStatus id0 newStatus now) tc) = lastTickRef s.
Proof.
  intros Habs. apply existsb_hasId_absent in Habs.
  assert (H : step s (UpdateStatus id0 newStatus now) tc = s).
  { unfold step. simpl. rewrite updateQuestionStatus_eq, Habs.
    rewrite map_updatedRecord_absent by exact Habs.
    rewrite setQuestions_same. apply commit_unchanged, depsUnchanged_refl. }
  rewrite H. auto.
Qed.

Lemma C8_unknown_id_noop_witness :
  step question1Running (UpdateStatus 7 ACTIVE 300) 300 = question1Running.
Proof.
  refine (proj1 (C8_unknown_id_noop question1Running 7 ACTIVE 300 300 _)).
  intros q Hin.
  assert (Hqs : questions question1Running =
                [ mkQuestion 1 ACTIVE 0 false;
                  mkQuestion 2 NOT_STARTED 0 false;
                  mkQuestion 3 NOT_STARTED 0 false ])
    by (vm_compute; reflexivity).
  rewrite Hqs in Hin. simpl in Hin.
  destruct Hin as [<- | [<- | [<- | []]]]; simpl; lia.
Defined.

End UnknownId.

(** ** The skipped flag *)

Section WasSkipped.

Lemma updatedRecord_wasSkipped (id0 : Z) (newStatus : QuestionStatus)
    (q : Question) :
  wasSkipped q = true -> wasSkipped (updatedRecord id0 newStatus q) = true.
Proof.
  intros Hw. unfold updatedRecord.
  destruct (hasId id0 q); [destruct newStatus|]; simpl; auto.
Qed.

Lemma updatedRecord_skipped (q : Question) :
  updatedRecord (id q) SKIPPED q
  = with_wasSkipped true (with_status SKIPPED q).
Proof. unfold updatedRecord, hasId. now rewrite Z.eqb_refl. Qed.

Lemma updatedRecord_skipped_idem (id0 : Z) (q : Question) :
  updatedRecord id0 SKIPPED (updatedRecord id0 SKIPPED q)
  = updatedRecord id0 SKIPPED q.
Proof.
  unfold updatedRecord, hasId. simpl.
  destruct (id q =? id0) eqn:Hid; simpl; rewrite Hid; reflexivity.
Qed.

(** Within a session every event maps the registry record by record, keeping
    ids and never lowering [wasSkipped]. *)
Lemma step_within_session (s : AppState) (e : Event) (tc : Z) :
  withinSession e = true ->
  exists f : Question -> Question,
    questions (step s e tc) = map f (questions s) /\
    forall q, id (f q) = id q /\
              (wasSkipped q = true -> wasSkipped (f q) = true).
Proof.
  intros He.
  assert (Hid : exists f : Question -> Question,
             questions s = map f (questions s) /\
             forall q, id (f q) = id q /\
                       (wasSkipped q = true -> wasSkipped (f q) = true)).
  { exists (fun q => q). split; [now rewrite map_id | auto]. }
  destruct e; try discriminate;
    try (unfold step; rewrite commit_questions; simpl; exact Hid).
  - rewrite step_tick_handle. simpl.
    destruct (timerIntervalRef s) as [[[a|]]|]; try exact Hid.
    exists (accrue a (now - lastTickRef s)). split; [reflexivity|].
    intros q. rewrite accrue_id, accrue_wasSkipped. auto.
  - exists (updatedRecord id0 newStatus). split.
    + apply step_update_questions.
    + intros q. split;
        [apply updatedRecord_id | apply updatedRecord_wasSkipped].
Qed.

Lemma run_within_session (es : list (Event * Z)) :
  forall (s : AppState) (i : nat) (q : Question),
    forallb (fun p => withinSession (fst p)) es = true ->
    nth_error (questions s) i = Some q ->
    exists q',
      nth_error (questions (run s es)) i = Some q' /\
      id q' = id q /\
      (wasSkipped q = true -> wasSkipped q' = true).
Proof.
  induction es as [|[e tc] rest IH]; intros s i q Hes Hq; simpl in *.
  - exists q. auto.
  - apply andb_true_iff in Hes. destruct Hes as [He Hrest].
    destruct (step_within_session s e tc He) as (f & Hqs & Hf).
    destruct (IH (step s e tc) i (f q) Hrest) as (q' & Hq' & Hid & Hw).
    { rewrite Hqs, nth_error_map, Hq. reflexivity. }
    exists q'. destruct (Hf q) as [Hfid Hfw].
    split; [exact Hq'|]. split; [congruence | auto].
Qed.

(** C9: over any sequence of status transitions, ticks and the other events
    of a session, a record keeps its place and its id and, once
    [wasSkipped] is true, [wasSkipped] stays true; a transition of the record
    to SKIPPED makes [wasSkipped] true; and a further transition to SKIPPED
    leaves the record as the first one made it. *)
Theorem C9_wasSkipped_monotone (s : AppState) (es : list (Event * Z))
    (i : nat) (q : Question) :
  forallb (fun p => withinSession (fst p)) es = true ->
  nth_error (questions s) i = Some q ->
  (exists q',
      nth_error (questions (run s es)) i = Some q' /\
      id q' = id q /\
      (wasSkipped q = true -> wasSkipped q' = true)) /\
  (forall now tc,
      exists q',
        nth_error (questions (step s (UpdateStatus (id q) SKIPPED now) tc)) i
        = Some q' /\
        wasSkipped q' = true /\
        forall now2 tc2,
          nth_error
            (questions
               (step (step s (UpdateStatus (id q) SKIPPED now) tc)
                     (UpdateStatus (id q) SKIPPED now2) tc2)) i
          = Some q').
Proof.
  intros Hes Hq. split; [now apply run_within_session|].
  intros now tc. exists (updatedRecord (id q) SKIPPED q). split; [|split].
  - rewrite step_update_questions, nth_error_map, Hq. reflexivity.
  - now rewrite updatedRecord_skipped.
  - intros now2 tc2.
    rewrite !step_update_questions, !nth_error_map, Hq. simpl.
    now rewrite updatedRecord_skipped_idem.
Qed.

Lemma C9_wasSkipped_monotone_witness :
  exists q',
    nth_error
      (questions (run (run initialState skipResumeTrace1) skipResumeTrace2)) 0
    = Some q' /\
    id q' = id (mkQuestion 1 SKIPPED 1000 true) /\
    (wasSkipped (mkQuestion 1 SKIPPED 1000 true) = true ->
     wasSkipped q' = true).
Proof.
  refine (proj1 (C9_wasSkipped_monotone (run initialState skipResumeTrace1)
                   skipResumeTrace2 0 (mkQuestion 1 SKIPPED 1000 true) _ _)).
  - vm_compute. reflexivity.
  - vm_compute. reflexivity.
Defined.

End WasSkipped.

(** ** A transition on a completed record *)

Section CompletedRecord.

Lemma updatedRecord_status (q : Question) (newStatus : QuestionStatus) :
  status (updatedRecord (id q) newStatus q) = newStatus.
Proof.
  unfold updatedRecord, hasId. rewrite Z.eqb_refl. now destruct newStatus.
Qed.

Lemma existsb_hasId_present (qs : list Question) (i : nat) (q : Question) :
  nth_error qs i = Some q -> existsb (hasId (id q)) qs = true.
Proof.
  intros Hq. apply existsb_exists. exists q. split.
  - eapply nth_error_In. exact Hq.
  - unfold hasId. apply Z.eqb_refl.
Qed.

Lemma step_update_running (s : AppState) (id0 : Z)
    (newStatus : QuestionStatus) (now tc : Z) :
  running (step s (UpdateStatus id0 newStatus now) tc) = running s.
Proof.
  unfold running, step. rewrite commit_view, commit_isGlobalPaused. simpl.
  rewrite updateQuestionStatus_eq.
  destruct (existsb (hasId id0) (questions s)); [|reflexivity].
  now destruct newStatus.
Qed.

(** C10: a transition requested for a COMPLETED record is carried out: the
    record gets the requested status, with its id and [timeSpentMs] kept, so
    the registry changes unless COMPLETED was requested again; when ACTIVE
    is requested, [activeQuestionId] becomes the record's id and, the clock
    running, each later tick adds its measured delta to the record's
    [timeSpentMs]. *)
Theorem C10_completed_not_terminal (s : AppState) (i : nat) (q : Question)
    (newStatus : QuestionStatus) (now tc : Z) :
  nth_error (questions s) i = Some q ->
  status q = COMPLETED ->
  let s' := step s (UpdateStatus (id q) newStatus now) tc in
  exists q',
    nth_error (questions s') i = Some q' /\
    status q' = newStatus /\
    id q' = id q /\
    timeSpentMs q' = timeSpentMs q /\
    (newStatus <> COMPLETED -> questions s' <> questions s) /\
    (newStatus = ACTIVE ->
     activeQuestionId s' = Some (id q) /\
     (reachable s -> running s = true ->
      forall t tc',
        nth_error (questions (step s' (Tick t) tc')) i
        = Some (with_timeSpentMs
                  (timeSpentMs q + (t - lastTickRef s')) q'))).
Proof.
  intros Hq Hst s'.
  exists (updatedRecord (id q) newStatus q).
  assert (Hq' : nth_error (questions s') i
                = Some (updatedRecord (id q) newStatus q)).
  { unfold s'. rewrite step_update_questions, nth_error_map, Hq. reflexivity. }
  split; [exact Hq'|].
  split; [apply updatedRecord_status|].
  split; [apply updatedRecord_id|].
  split; [apply updatedRecord_timeSpentMs|].
  split.
  - intros Hne Heq. rewrite Heq, Hq in Hq'.
    injection Hq' as Hq'. apply (f_equal status) in Hq'.
    rewrite updatedRecord_status in Hq'. congruence.
  - intros ->.
    assert (Ha : activeQuestionId s' = Some (id q)).
    { unfold s'. rewrite step_update_activeQuestionId.
      now rewrite (existsb_hasId_present _ _ _ Hq). }
    split; [exact Ha|].
    intros Hreach Hrun t tc'.
    assert (Hinv : Inv s') by (apply reachable_Inv; now constructor).
    assert (Hreg : timerIntervalRef s' <> None).
    { apply interval_iff_running; [exact Hinv|].
      unfold s'. now rewrite step_update_running. }
    rewrite step_tick_questions by assumption.
    rewrite nth_error_map, Hq'. simpl. f_equal.
    rewrite (credit_linked s' _ _ (id q) Ha).
    + now rewrite updatedRecord_timeSpentMs.
    + apply updatedRecord_id.
    + apply updatedRecord_status.
Qed.

Lemma question1Completed_reachable : reachable question1Completed.
Proof. apply reachable_run, question1Running_reachable. Qed.

Lemma C10_completed_not_terminal_witness :
  nth_error
    (questions
       (step (step question1Completed (UpdateStatus 1 ACTIVE 300) 300)
             (Tick 400) 400)) 0
  = Some (mkQuestion 1 ACTIVE 100 true).
Proof.
  destruct (C10_completed_not_terminal question1Completed 0
              (mkQuestion 1 COMPLETED 0 true) ACTIVE 300 300)
    as (q' & Hq' & _ & _ & _ & _ & Hactive).
  - vm_compute. reflexivity.
  - reflexivity.
  - destruct (Hactive eq_refl) as [_ Htick].
    pose proof (Htick question1Completed_reachable
                  ltac:(vm_compute; reflexivity) 400 400) as H400.
    cbn [id] in H400. rewrite H400.
    vm_compute in Hq'. injection Hq' as <-.
    vm_compute. reflexivity.
Defined.

End CompletedRecord.

(** ** The time displays *)

Section TimeDisplays.

Import Stdlib.Strings.Ascii Stdlib.Strings.String.
Import Format.

Lemma string_length_append (a b : string) :
  String.length (a ++ b)%string = (String.length a + String.length b)%nat.
Proof. induction a as [|c a IH]; simpl; [reflexivity | now rewrite IH]. Qed.

(** Every number below 100 is shown with exactly two characters. *)
Lemma pad2_below_100 (n : Z) :
  0 <= n < 100 -> String.length (padStart 2 "0" (toString n)) = 2%nat.
Proof.
  intros Hn.
  assert (Hall : forallb
            (fun k : nat =>
               Nat.eqb (String.length
                          (padStart 2 "0" (toString (Z.of_nat k)))) 2)
            (seq 0 100) = true) by (vm_compute; reflexivity).
  rewrite forallb_forall in Hall.
  specialize (Hall (Z.to_nat n)).
  rewrite Z2Nat.id in Hall by lia.
  apply Nat.eqb_eq, Hall, in_seq. lia.
Qed.

(** X1: On a non-negative number of milliseconds the question displays of
    [TrackerGrid] and [ControlOverlay] show what the global display shows. *)
Theorem formatTime_agrees_with_formatGlobalTime (ms : Z) :
  0 <= ms -> formatTime ms = formatGlobalTime ms.
Proof.
  intros Hms. unfold formatTime, formatGlobalTime.
  rewrite (proj2 (Z.ltb_ge ms 0) Hms), (Z.abs_eq ms Hms).
  rewrite Z.rem_mod_nonneg by (try apply Z.div_pos; lia).
  reflexivity.
Qed.

Lemma formatTime_agrees_with_formatGlobalTime_witness :
  formatTime 359500 = formatGlobalTime 359500.
Proof. apply formatTime_agrees_with_formatGlobalTime. lia. Defined.

(** X2: Overtime is shown as the minus sign followed by the display of the
    amount, and an overtime below one second as ["-00:00"]. *)
Theorem formatGlobalTime_overtime (ms : Z) :
  0 < ms ->
  formatGlobalTime (- ms) = ("-" ++ formatGlobalTime ms)%string /\
  (ms < 1000 -> formatGlobalTime (- ms) = "-00:00"%string).
Proof.
  intros Hms. unfold formatGlobalTime.
  rewrite Z.abs_opp.
  rewrite (proj2 (Z.ltb_lt (- ms) 0)) by lia.
  rewrite (proj2 (Z.ltb_ge ms 0)) by lia.
  split; [reflexivity|].
  intros Hsmall. rewrite Z.abs_eq by lia.
  rewrite (Z.div_small ms 1000) by lia. reflexivity.
Qed.

Lemma formatGlobalTime_overtime_witness :
  formatGlobalTime (- 500) = "-00:00"%string.
Proof.
  refine (proj2 (formatGlobalTime_overtime 500 _) _); lia.
Defined.

(** X3: Below one hundred minutes the global display has the shape [MM:SS]: five
    characters, the colon in the middle, preceded by a minus sign for a
    negative time. *)
Theorem formatGlobalTime_shape (ms : Z) :
  - 6000000 < ms < 6000000 ->
  String.length (formatGlobalTime ms) = (if ms <? 0 then 6%nat else 5%nat) /\
  String.get (if ms <? 0 then 3%nat else 2%nat) (formatGlobalTime ms)
  = Some ":"%char.
Proof.
  intros Hms. unfold formatGlobalTime.
  set (total := Z.abs ms / 1000).
  assert (Htotal : 0 <= total < 6000).
  { unfold total. split.
    - apply Z.div_pos; lia.
    - apply Z.div_lt_upper_bound; lia. }
  assert (Hm : String.length (padStart 2 "0" (toString (total / 60))) = 2%nat).
  { apply pad2_below_100. split.
    - apply Z.div_pos; lia.
    - apply Z.div_lt_upper_bound; lia. }
  assert (Hs : String.length (padStart 2 "0" (toString (total mod 60))) = 2%nat).
  { apply pad2_below_100. pose proof (Z.mod_pos_bound total 60). lia. }
  destruct (padStart 2 "0" (toString (total / 60))) as [|c1 [|c2 [|c3 rest]]];
    try discriminate.
  destruct (padStart 2 "0" (toString (total mod 60))) as [|d1 [|d2 [|d3 rest]]];
    try discriminate.
  destruct (ms <? 0); split; reflexivity.
Qed.

Lemma formatGlobalTime_shape_witness :
  String.length (formatGlobalTime (- 61000))
  = (if - 61000 <? 0 then 6%nat else 5%nat) /\
  String.get (if - 61000 <? 0 then 3%nat else 2%nat)
             (formatGlobalTime (- 61000))
  = Some ":"%char.
Proof. apply (formatGlobalTime_shape (- 61000)). lia. Defined.

End TimeDisplays.

(** ** The analytics counts *)

Section AnalyticsCounts.

Import Analytics.

Lemma filter_and_length_le {A : Type} (p r : A -> bool) (l : list A) :
  (length (filter (fun x => p x && r x) l) <= length (filter p l))%nat.
Proof.
  induction l as [|x l IH]; simpl; [lia|].
  destruct (p x), (r x); simpl; lia.
Qed.

Lemma filter_disjoint_length_le {A : Type} (p r : A -> bool) (l : list A) :
  (forall x, p x = true -> r x = true -> False) ->
  (length (filter p l) + length (filter r l) <= length l)%nat.
Proof.
  intros Hdisj. induction l as [|x l IH]; simpl; [lia|].
  destruct (p x) eqn:Hp, (r x) eqn:Hr; simpl; try lia.
  destruct (Hdisj x Hp Hr).
Qed.

Lemma status_partition (questions : list Question) :
  (length questions
   = greenCount questions + orangeCount questions + blueCount questions
     + length (filter incomplete questions))%nat.
Proof.
  unfold greenCount, orangeCount, blueCount, incomplete.
  induction questions as [|q rest IH]; simpl; [reflexivity|].
  destruct (status q), (wasSkipped q); simpl; lia.
Qed.

(** X4: The status breakdown: the count of the fourth slice, obtained by
    subtraction, is the number of questions that are not started, active or
    paused; it is never negative and the four counts add up to the number of
    questions. *)
Theorem status_breakdown_partition (questions : list Question) :
  grayCount questions = Z.of_nat (length (filter incomplete questions)) /\
  0 <= grayCount questions /\
  Z.of_nat (greenCount questions) + Z.of_nat (orangeCount questions)
  + Z.of_nat (blueCount questions) + grayCount questions
  = Z.of_nat (totalQuestions questions).
Proof.
  unfold grayCount, totalQuestions.
  pose proof (status_partition questions) as H. lia.
Qed.

Lemma three_way_count {A : Type} (p1 p2 p3 : A -> bool) (l : list A) :
  (forall x, (Nat.b2n (p1 x) + Nat.b2n (p2 x) + Nat.b2n (p3 x) <= 1)%nat) ->
  (length (filter p1 l) + length (filter p2 l) + length (filter p3 l)
   <= length l)%nat /\
  ((forall x, (Nat.b2n (p1 x) + Nat.b2n (p2 x) + Nat.b2n (p3 x) = 1)%nat) ->
   (length (filter p1 l) + length (filter p2 l) + length (filter p3 l)
    = length l)%nat).
Proof.
  intros Hle. split.
  - induction l as [|x l IH]; simpl; [lia|].
    specialize (Hle x).
    destruct (p1 x), (p2 x), (p3 x); simpl in *; lia.
  - intros Heq. induction l as [|x l IH]; simpl; [lia|].
    specialize (Heq x).
    destruct (p1 x), (p2 x), (p3 x); simpl in *; lia.
Qed.

Lemma ltb_spec (a b : Q) : ltb a b = true <-> (a < b)%Q.
Proof.
  unfold ltb. rewrite negb_true_iff.
  destruct (Qle_bool b a) eqn:Hle.
  - apply Qle_bool_iff in Hle. split; [discriminate | lra].
  - split; [intros _ | reflexivity].
    apply Qnot_le_lt. intros H. apply Qle_bool_iff in H. congruence.
Qed.

Lemma leb_spec (a b : Q) : leb a b = true <-> (a <= b)%Q.
Proof. apply Qle_bool_iff. Qed.

Lemma bucket_tests (A B C D t : Q) :
  (A <= B)%Q -> (B <= C)%Q -> (C <= D)%Q ->
  (Nat.b2n (ltb t A) + Nat.b2n (leb B t && leb t C) + Nat.b2n (ltb D t)
   <= 1)%nat /\
  ((A == B)%Q -> (C == D)%Q ->
   (Nat.b2n (ltb t A) + Nat.b2n (leb B t && leb t C) + Nat.b2n (ltb D t)
    = 1)%nat).
Proof.
  intros HAB HBC HCD.
  destruct (ltb t A) eqn:H1, (leb B t) eqn:H2, (leb t C) eqn:H3,
           (ltb D t) eqn:H4; simpl;
    try apply ltb_spec in H1; try apply leb_spec in H2;
    try apply leb_spec in H3; try apply ltb_spec in H4;
    (split; [try lia; exfalso; lra | intros HeqAB HeqCD; try lia; exfalso]).
  all: try (assert (Hn1 : ~ (t < A)%Q)
              by (intros H; apply ltb_spec in H; congruence)).
  all: try (assert (Hn2 : ~ (B <= t)%Q)
              by (intros H; apply leb_spec in H; congruence)).
  all: try (assert (Hn3 : ~ (t <= C)%Q)
              by (intros H; apply leb_spec in H; congruence)).
  all: try (assert (Hn4 : ~ (D < t)%Q)
              by (intros H; apply ltb_spec in H; congruence)).
  all: lra.
Qed.

(** X5: The time distribution: when the three ranges do not overlap
    ([range1Limit <= range2Lower <= range2Upper <= range3Limit]) no finished
    question is counted twice, and when they are also contiguous
    ([range1Limit = range2Lower], [range2Upper = range3Limit], as in the
    default configuration) every finished question is counted exactly once:
    the three counts add up to the number of finished questions. *)
Theorem time_distribution_counts (config : AppConfig)
    (questions : list Question) :
  (range1Limit config <= range2Lower config)%Q ->
  (range2Lower config <= range2Upper config)%Q ->
  (range2Upper config <= range3Limit config)%Q ->
  (underRange1 config questions + range2 config questions
   + overRange3 config questions <= totalFinished questions)%nat /\
  ((range1Limit config == range2Lower config)%Q ->
   (range2Upper config == range3Limit config)%Q ->
   (underRange1 config questions + range2 config questions
    + overRange3 config questions = totalFinished questions)%nat).
Proof.
  intros H12 H22 H23.
  unfold underRange1, range2, overRange3, totalFinished.
  assert (Hms : forall a b : Q, (a <= b)%Q -> (minutesMs a <= minutesMs b)%Q)
    by (intros a b Hab; unfold minutesMs; lra).
  assert (Hmeq : forall a b : Q, (a == b)%Q -> (minutesMs a == minutesMs b)%Q)
    by (intros a b Hab; unfold minutesMs; lra).
  split.
  - apply three_way_count. intros q.
    apply bucket_tests; unfold RANGE_1_MS, RANGE_2_LOWER_MS,
      RANGE_2_UPPER_MS, RANGE_3_MS; auto.
  - intros He1 He2. apply three_way_count; intros q;
      apply bucket_tests; unfold RANGE_1_MS, RANGE_2_LOWER_MS,
        RANGE_2_UPPER_MS, RANGE_3_MS; auto.
Qed.

Lemma time_distribution_counts_witness :
  (underRange1 DEFAULT_CONFIG (questions Runs.finishedSession)
   + range2 DEFAULT_CONFIG (questions Runs.finishedSession)
   + overRange3 DEFAULT_CONFIG (questions Runs.finishedSession)
   = totalFinished (questions Runs.finishedSession))%nat.
Proof.
  refine (proj2 (time_distribution_counts DEFAULT_CONFIG
                   (questions Runs.finishedSession) _ _ _) _ _);
    vm_compute; (reflexivity || discriminate).
Defined.

(** X6: The long-question metrics: every count that is shown as a share of a
    reference count is at most that reference, so no percentage of the
    analysis exceeds 100; and the long questions that were skipped and those
    that were answered are disjoint parts of the long questions. *)
Theorem final_metrics_bounds (config : AppConfig) (questions : list Question)
    (reviewData : ReviewData) :
  let m := calculateFinalMetrics config questions reviewData in
  (hardMarkedCount m <= totalLongCount m)%nat /\
  (correctAndHardCount m <= hardMarkedCount m)%nat /\
  (longSkippedCount m <= metricsTotalQuestions m)%nat /\
  (correctAnsweredLongCount m <= answeredLongCount m)%nat /\
  (longSkippedCount m + answeredLongCount m <= totalLongCount m)%nat /\
  (totalLongCount m <= metricsTotalQuestions m)%nat.
Proof.
  simpl. unfold skippedLongQuestions, answeredLongQuestions, totalQuestions.
  assert (Hlong : (length (longQuestions config questions)
                   <= length questions)%nat)
    by apply filter_length_le.
  repeat split.
  - apply filter_length_le.
  - apply filter_and_length_le.
  - etransitivity; [apply filter_length_le | exact Hlong].
  - apply filter_length_le.
  - apply filter_disjoint_length_le. intros q Hs Hc.
    apply QuestionStatus_eqb_eq in Hs, Hc. congruence.
  - exact Hlong.
Qed.

(** X7: Marking a long question: a toggle negates the chosen mark of the chosen
    question, keeps its other mark and the marks of every other question, and
    a second toggle of the same mark restores all marks. *)
Theorem toggleReviewState_marks (id0 : Z) (field : ReviewField)
    (prev : ReviewData) :
  marked field (toggleReviewState id0 field prev) id0
  = negb (marked field prev id0) /\
  (forall other, other <> field ->
     marked other (toggleReviewState id0 field prev) id0
     = marked other prev id0) /\
  (forall k, k <> id0 -> toggleReviewState id0 field prev k = prev k) /\
  (forall f k,
     marked f (toggleReviewState id0 field
                 (toggleReviewState id0 field prev)) k
     = marked f prev k).
Proof.
  cbv [marked markedCorrect markedHard toggleReviewState].
  split; [|split; [|split]].
  - rewrite Z.eqb_refl. now destruct field.
  - intros other Hother. rewrite Z.eqb_refl.
    destruct field, other; try reflexivity; now destruct Hother.
  - intros k Hk. now rewrite (proj2 (Z.eqb_neq k id0) Hk).
  - intros f k.
    destruct (Z.eqb_spec k id0) as [->|Hk].
    + rewrite ?Z.eqb_refl.
      destruct field, f; simpl; destruct (prev id0) as [[c h]|]; simpl;
        try reflexivity; apply negb_involutive.
    + reflexivity.
Qed.

Lemma toggleReviewState_marks_witness :
  marked IsHard (toggleReviewState 3 IsCorrect emptyReviewData) 3
  = marked IsHard emptyReviewData 3.
Proof.
  refine (proj1 (proj2 (toggleReviewState_marks 3 IsCorrect emptyReviewData))
            IsHard _).
  discriminate.
Defined.

End AnalyticsCounts.

(** ** Finishing, restarting and starting a session; activating a question *)

Section SessionLifecycle.

Lemma not_running_idle (s : AppState) :
  Inv s -> running s = false -> timerIntervalRef s = None.
Proof. intros [_ Hiv _] Hrun. now rewrite Hiv, Hrun. Qed.

(** X8: [handleFinishSession] stops the clock and hands the registry to the
    analytics as it is: from any reachable state the view becomes the
    analytics view, no interval stays registered, so later timer events
    change nothing, no record is touched (a question left ACTIVE stays
    ACTIVE), and the budget and its allocation are kept. *)
Theorem finish_stops_the_clock (s : AppState) (tc : Z)
    (es : list (Event * Z)) :
  reachable s ->
  let s' := step s FinishSession tc in
  view s' = ANALYTICS /\
  questions s' = questions s /\
  activeQuestionId s' = None /\
  remainingTimeMs s' = remainingTimeMs s /\
  totalAllocatedTimeMs s' = totalAllocatedTimeMs s /\
  timerIntervalRef s' = None /\
  (forallb (fun p => isTick (fst p)) es = true -> run s' es = s').
Proof.
  intros Hreach s'.
  assert (Hinv : Inv s') by (apply reachable_Inv; now constructor).
  assert (Hview : view s' = ANALYTICS)
    by (unfold s', step; now rewrite commit_view).
  assert (Hidle : timerIntervalRef s' = None).
  { apply not_running_idle; [exact Hinv|]. unfold running. now rewrite Hview. }
  split; [exact Hview|].
  split; [unfold s', step; now rewrite commit_questions|].
  split; [unfold s', step; now rewrite commit_activeQuestionId|].
  split; [unfold s', step; now rewrite commit_remainingTimeMs|].
  split; [unfold s', step; now rewrite commit_totalAllocatedTimeMs|].
  split; [exact Hidle|].
  intros Hticks. now apply run_ticks_idle.
Qed.

Lemma finish_stops_the_clock_witness :
  questions (step question1Running FinishSession 700)
  = questions question1Running.
Proof.
  refine (proj1 (proj2 (finish_stops_the_clock question1Running 700 [] _))).
  apply question1Running_reachable.
Defined.

Lemma commit_config (old new : AppState) (tc : Z) :
  config (commit old tc new) = config new.
Proof. commit_cases old new. Qed.

(** X9: [handleRestart] discards the registry and returns to the setup view with
    the clock stopped: no interval stays registered and later timer events
    change nothing.  The configuration is kept for the next session, and so
    is the previous session's [totalAllocatedTimeMs], while
    [remainingTimeMs] is reset to 0. *)
Theorem restart_discards_the_session (s : AppState) (tc : Z)
    (es : list (Event * Z)) :
  reachable s ->
  let s' := step s Restart tc in
  view s' = SETUP /\
  questions s' = [] /\
  activeQuestionId s' = None /\
  remainingTimeMs s' = 0 /\
  isGlobalPaused s' = false /\
  config s' = config s /\
  totalAllocatedTimeMs s' = totalAllocatedTimeMs s /\
  timerIntervalRef s' = None /\
  (forallb (fun p => isTick (fst p)) es = true -> run s' es = s').
Proof.
  intros Hreach s'.
  assert (Hinv : Inv s') by (apply reachable_Inv; now constructor).
  assert (Hview : view s' = SETUP)
    by (unfold s', step; now rewrite commit_view).
  assert (Hidle : timerIntervalRef s' = None).
  { apply not_running_idle; [exact Hinv|]. unfold running. now rewrite Hview. }
  split; [exact Hview|].
  split; [unfold s', step; now rewrite commit_questions|].
  split; [unfold s', step; now rewrite commit_activeQuestionId|].
  split; [unfold s', step; now rewrite commit_remainingTimeMs|].
  split; [unfold s', step; now rewrite commit_isGlobalPaused|].
  split; [unfold s', step; now rewrite commit_config|].
  split; [unfold s', step; now rewrite commit_totalAllocatedTimeMs|].
  split; [exact Hidle|].
  intros Hticks. now apply run_ticks_idle.
Qed.

Lemma restart_discards_the_session_witness :
  totalAllocatedTimeMs (step Runs.finishedSession Restart 250000)
  = totalAllocatedTimeMs Runs.finishedSession.
Proof.
  refine (proj1 (proj2 (proj2 (proj2 (proj2 (proj2 (proj2
    (restart_discards_the_session Runs.finishedSession 250000 [] _)))))))).
  apply (reachable_run Runs.finishedSessionTrace). constructor.
Defined.

(** X10: Starting a session from the setup view starts the clock at the instant
    of the commit: an interval is registered, the last-tick timestamp is that
    instant, and the first tick lowers the full allocation by the time
    elapsed since then. *)
Theorem start_starts_the_clock (s : AppState) (count : Z)
    (newConfig : AppConfig) (tc t tc' : Z) :
  reachable s ->
  view s = SETUP ->
  let s' := step s (StartSession count newConfig) tc in
  running s' = true /\
  timerIntervalRef s' <> None /\
  lastTickRef s' = tc /\
  remainingTimeMs (step s' (Tick t) tc')
  = allocatedMs count newConfig - (t - tc).
Proof.
  intros Hreach Hview s'.
  pose proof (reachable_Inv s Hreach) as Hinv.
  assert (Hinv' : Inv s') by (apply reachable_Inv; now constructor).
  assert (Hrun : running s' = true).
  { apply running_spec. unfold s', step.
    now rewrite commit_view, commit_isGlobalPaused. }
  assert (Hreg : timerIntervalRef s' <> None)
    by now apply interval_iff_running.
  assert (Hlast : lastTickRef s' = tc).
  { unfold s', step. apply commit_started.
    - unfold depsUnchanged. simpl. now rewrite Hview.
    - apply running_spec. simpl. auto.
    - intros _. simpl. apply not_running_idle; [exact Hinv|].
      unfold running. now rewrite Hview. }
  split; [exact Hrun|]. split; [exact Hreg|]. split; [exact Hlast|].
  rewrite step_tick_remainingTimeMs by assumption.
  rewrite Hlast. unfold s'. now rewrite start_remainingTimeMs.
Qed.

Lemma start_starts_the_clock_witness :
  remainingTimeMs
    (step (step initialState (StartSession 3 (configWithIdeal 2)) 5)
          (Tick 105) 105)
  = allocatedMs 3 (configWithIdeal 2) - (105 - 5).
Proof.
  refine (proj2 (proj2 (proj2
    (start_starts_the_clock initialState 3 (configWithIdeal 2) 5 105 105
       _ _)))).
  - constructor.
  - reflexivity.
Defined.

Lemma commit_lastTickRef_cases (old new : AppState) (tc : Z) :
  lastTickRef (commit old tc new) = lastTickRef new \/
  lastTickRef (commit old tc new) = tc.
Proof.
  unfold_commit. destruct (depsUnchanged old new); [now left|].
  destruct new as [v qs a c tot r p sh [iv|] lt [|]];
    destruct v, p; simpl; auto.
Qed.

(** X11: Activating an existing question resynchronizes the clock: afterwards
    [activeQuestionId] is that question and the last-tick timestamp is the
    instant of the call or the instant of the commit that follows it, so the
    next tick, at [t], lowers the budget and credits the question by no more
    than the time elapsed since the activation; time that passed before it
    is never credited to the newly active question. *)
Theorem activation_resynchronizes (s : AppState) (id0 : Z) (now tc t tc' : Z) :
  reachable s ->
  existsb (hasId id0) (questions s) = true ->
  now <= tc ->
  let s' := step s (UpdateStatus id0 ACTIVE now) tc in
  activeQuestionId s' = Some id0 /\
  (lastTickRef s' = now \/ lastTickRef s' = tc) /\
  (running s = true ->
   remainingTimeMs (step s' (Tick t) tc')
   = remainingTimeMs s - (t - lastTickRef s') /\
   questions (step s' (Tick t) tc')
   = map (credit s' (t - lastTickRef s')) (questions s') /\
   t - lastTickRef s' <= t - now).
Proof.
  intros Hreach Hex Hnow s'.
  assert (Ha : activeQuestionId s' = Some id0).
  { unfold s'. rewrite step_update_activeQuestionId. now rewrite Hex. }
  assert (Hlast : lastTickRef s' = now \/ lastTickRef s' = tc).
  { unfold s', step.
    destruct (commit_lastTickRef_cases s
                (handle (UpdateStatus id0 ACTIVE now) s) tc) as [H|H];
      [left | now right].
    rewrite H. simpl. rewrite updateQuestionStatus_eq, Hex. reflexivity. }
  split; [exact Ha|]. split; [exact Hlast|].
  intros Hrun.
  assert (Hinv' : Inv s') by (apply reachable_Inv; now constructor).
  assert (Hreg : timerIntervalRef s' <> None).
  { apply interval_iff_running; [exact Hinv'|].
    unfold s'. now rewrite step_update_running. }
  rewrite step_tick_remainingTimeMs, step_tick_questions by assumption.
  split; [|split; [reflexivity | destruct Hlast; lia]].
  f_equal. unfold s', step. rewrite commit_remainingTimeMs. simpl.
  rewrite updateQuestionStatus_eq, Hex. reflexivity.
Qed.

Lemma activation_resynchronizes_witness :
  activeQuestionId (step session3 (UpdateStatus 2 ACTIVE 4000) 4001) = Some 2.
Proof.
  refine (proj1 (activation_resynchronizes session3 2 4000 4001 4100 4100
                   _ _ _)).
  - repeat constructor.
  - vm_compute. reflexivity.
  - lia.
Defined.

End SessionLifecycle.

(** ** Invariants of the registry *)

Section RegistryInvariants.

Import Runs.

(** How each event acts on the registry and on the view. *)
Lemma step_view (s : AppState) (e : Event) (tc : Z) :
  view (step s e tc) =
  match e with
  | StartSession _ _ => TRACKER
  | FinishSession => ANALYTICS
  | Restart => SETUP
  | _ => view s
  end.
Proof.
  unfold step. rewrite commit_view. destruct e; simpl; try reflexivity.
  - destruct (timerIntervalRef s) as [[[a|]]|]; reflexivity.
  - rewrite updateQuestionStatus_eq.
    destruct (existsb (hasId id0) (questions s)); [|reflexivity].
    now destruct newStatus.
Qed.

Lemma step_questions (s : AppState) (e : Event) (tc : Z) :
  questions (step s e tc) =
  match e with
  | StartSession count _ => newQuestions count
  | Restart => []
  | Tick now =>
      match timerIntervalRef s with
      | Some (mkInterval (Some a)) =>
          map (accrue a (now - lastTickRef s)) (questions s)
      | _ => questions s
      end
  | UpdateStatus id0 newStatus _ =>
      map (updatedRecord id0 newStatus) (questions s)
  | _ => questions s
  end.
Proof.
  unfold step. rewrite commit_questions. destruct e; simpl; try reflexivity.
  - destruct (timerIntervalRef s) as [[[a|]]|]; reflexivity.
  - now rewrite updateQuestionStatus_eq.
Qed.

Lemma runUI_ind (P : AppState -> Prop) :
  (forall s e tc,
      reachable s -> P s -> uiOffers s e = true -> P (step s e tc)) ->
  forall es s s',
    reachable s -> P s -> runUI s es = Some s' -> P s'.
Proof.
  intros Hstep. induction es as [|[e tc] rest IH]; intros s s' Hr HP Hrun;
    simpl in Hrun.
  - now injection Hrun as <-.
  - destruct (uiOffers s e) eqn:He; [|discriminate].
    apply (IH (step s e tc) s'); auto. now constructor.
Qed.

Lemma uiReachable_reachable (s : AppState) : uiReachable s -> reachable s.
Proof.
  intros [es Hes]. apply runUI_run in Hes. subst s.
  apply reachable_run. constructor.
Qed.

(** X12: In every reachable state a record of status SKIPPED is flagged
    [wasSkipped]: the questions the analytics count as skipped are all
    flagged, and a completed record without the flag was never skipped. *)
Theorem skipped_records_are_flagged (s : AppState) (q : Question) :
  reachable s ->
  In q (questions s) ->
  status q = SKIPPED ->
  wasSkipped q = true.
Proof.
  intros Hreach. revert q.
  induction Hreach as [|s e tc Hreach IH]; intros q Hin Hst.
  - destruct Hin.
  - rewrite step_questions in Hin. destruct e; try (now apply IH).
    + pose proof (newQuestions_fresh count) as Hfresh.
      rewrite Forall_forall in Hfresh.
      destruct (Hfresh q Hin) as (Hns & _). congruence.
    + destruct (timerIntervalRef s) as [[[a|]]|]; try (now apply IH).
      apply in_map_iff in Hin. destruct Hin as (q0 & <- & Hin0).
      rewrite accrue_wasSkipped. apply IH; [exact Hin0|].
      now rewrite accrue_status in Hst.
    + apply in_map_iff in Hin. destruct Hin as (q0 & <- & Hin0).
      unfold updatedRecord in *. destruct (hasId id0 q0).
      * destruct newStatus; simpl in *; try discriminate. reflexivity.
      * now apply IH.
Qed.

Lemma skipped_records_are_flagged_witness :
  wasSkipped (mkQuestion 2 SKIPPED 150000 true) = true.
Proof.
  apply (skipped_records_are_flagged finishedSession).
  - apply (reachable_run finishedSessionTrace). constructor.
  - assert (H : nth_error (questions finishedSession) 1
                = Some (mkQuestion 2 SKIPPED 150000 true))
      by (vm_compute; reflexivity).
    eapply nth_error_In. exact H.
  - reflexivity.
Defined.

Lemma buttonOffers_not_NOT_STARTED (st newStatus : QuestionStatus) :
  buttonOffers st newStatus = true -> newStatus <> NOT_STARTED.
Proof. destruct st, newStatus; simpl; congruence. Qed.

Lemma uiOffers_update (s : AppState) (id0 : Z) (newStatus : QuestionStatus)
    (now : Z) :
  uiOffers s (UpdateStatus id0 newStatus now) = true ->
  view s = TRACKER /\
  exists q, findQuestion id0 (questions s) = Some q /\
            buttonOffers (status q) newStatus = true.
Proof.
  simpl. rewrite andb_true_iff, AppView_eqb_eq. intros [Hv Hq].
  split; [exact Hv|].
  destruct (findQuestion id0 (questions s)) as [q|]; [|discriminate].
  now exists q.
Qed.

Lemma step_activeQuestionId_kept (s : AppState) (e : Event) (tc : Z) :
  match e with
  | Tick _ | PauseGlobal | ResumeGlobal _ | OpenTimerControls
  | CloseTimerControls | StartSession _ _ => True
  | _ => False
  end ->
  activeQuestionId (step s e tc) = activeQuestionId s.
Proof.
  intros He. unfold step. rewrite commit_activeQuestionId.
  destruct e; simpl; try reflexivity; try destruct He.
  destruct (timerIntervalRef s) as [[[a|]]|]; reflexivity.
Qed.

Lemma step_UIInv (s : AppState) (e : Event) (tc : Z) :
  reachable s -> UIInv s -> uiOffers s e = true -> UIInv (step s e tc).
Proof.
  intros Hreach [Hsetup Hsize Hns] Hoff.
  pose proof (reachable_Inv s Hreach) as Hinv.
  constructor.
  - (* the setup view *)
    rewrite step_view, step_questions.
    destruct e; try discriminate; intros Hv.
    + (* Tick *)
      destruct (Hsetup Hv) as [Hq Ha].
      rewrite step_activeQuestionId_kept by exact I.
      rewrite Hq. split; [|exact Ha].
      destruct (timerIntervalRef s) as [[[a|]]|]; reflexivity.
    + (* UpdateStatus *)
      apply uiOffers_update in Hoff. destruct Hoff as [Hview _]. congruence.
    + (* Restart *)
      split; [reflexivity|].
      unfold step. now rewrite commit_activeQuestionId.
    + rewrite step_activeQuestionId_kept by exact I. auto.
    + rewrite step_activeQuestionId_kept by exact I. auto.
    + rewrite step_activeQuestionId_kept by exact I. auto.
    + rewrite step_activeQuestionId_kept by exact I. auto.
  - (* the size of the registry *)
    rewrite step_view, step_questions.
    destruct e; intros Hv; try (now apply Hsize); try (now destruct Hv).
    + simpl in Hoff. rewrite !andb_true_iff in Hoff.
      destruct Hoff as [[_ Hpos] Hmax].
      apply Z.ltb_lt in Hpos. apply Z.leb_le in Hmax.
      unfold newQuestions. rewrite length_map, length_seq. lia.
    + destruct (timerIntervalRef s) as [[[a|]]|]; rewrite ?length_map;
        now apply Hsize.
    + rewrite length_map. now apply Hsize.
    + apply Hsize. simpl in Hoff. apply AppView_eqb_eq in Hoff. congruence.
  - (* records not started *)
    rewrite step_questions. intros q Hin Hst.
    destruct e; try (now apply Hns).
    + pose proof (newQuestions_fresh count) as Hfresh.
      rewrite Forall_forall in Hfresh.
      destruct (Hfresh q Hin) as (_ & Ht & Hw). auto.
    + destruct (timerIntervalRef s) as [[[a|]]|]; try (now apply Hns).
      apply in_map_iff in Hin. destruct Hin as (q0 & <- & Hin0).
      rewrite accrue_status in Hst.
      rewrite accrue_not_active by congruence. now apply Hns.
    + apply uiOffers_update in Hoff.
      destruct Hoff as (_ & q1 & _ & Hbutton).
      apply buttonOffers_not_NOT_STARTED in Hbutton.
      apply in_map_iff in Hin. destruct Hin as (q0 & <- & Hin0).
      unfold updatedRecord in *. destruct (hasId id0 q0).
      * destruct newStatus; simpl in Hst; congruence.
      * now apply Hns.
Qed.

Lemma initialState_UIInv : UIInv initialState.
Proof.
  constructor; simpl.
  - auto.
  - intros H. now destruct H.
  - intros q [].
Qed.

Lemma uiReachable_UIInv (s : AppState) : uiReachable s -> UIInv s.
Proof.
  intros [es Hes].
  apply (runUI_ind UIInv step_UIInv es initialState s);
    [constructor | apply initialState_UIInv | exact Hes].
Qed.

End RegistryInvariants.

(** ** What the interface guarantees *)

Section InterfaceGuarantees.

Import Runs.

(** X13: In the setup view the registry is empty and no question is active, so a
    session started from the interface begins with no active question;
    [handleStartSession] itself does not reset [activeQuestionId]. *)
Theorem ui_session_starts_without_active_question (s : AppState) (count : Z)
    (newConfig : AppConfig) (tc : Z) :
  uiReachable s ->
  view s = SETUP ->
  questions s = [] /\
  activeQuestionId s = None /\
  activeQuestionId (step s (StartSession count newConfig) tc) = None.
Proof.
  intros Hui Hview.
  destruct (ui_setup s (uiReachable_UIInv s Hui) Hview) as [Hq Ha].
  split; [exact Hq|]. split; [exact Ha|].
  now rewrite step_activeQuestionId_kept by exact I.
Qed.

Lemma finishedSession_uiReachable : uiReachable finishedSession.
Proof. exists finishedSessionTrace. vm_compute. reflexivity. Qed.

Lemma restarted_uiReachable :
  uiReachable (step finishedSession Restart 250000).
Proof.
  exists (finishedSessionTrace ++ [(Restart, 250000)]).
  vm_compute. reflexivity.
Qed.

Lemma ui_session_starts_without_active_question_witness :
  questions (step finishedSession Restart 250000) = [] /\
  activeQuestionId (step finishedSession Restart 250000) = None /\
  activeQuestionId
    (step (step finishedSession Restart 250000)
          (StartSession 5 DEFAULT_CONFIG) 260000) = None.
Proof.
  apply (ui_session_starts_without_active_question
           (step finishedSession Restart 250000) 5 DEFAULT_CONFIG 260000).
  - apply restarted_uiReachable.
  - vm_compute. reflexivity.
Defined.

(** X14: Outside the setup view the registry holds between 1 and 200 questions:
    the analytics, which divide the status counts by the number of
    questions, are never shown for an empty registry. *)
Theorem ui_registry_size (s : AppState) :
  uiReachable s ->
  view s <> SETUP ->
  (1 <= length (questions s) <= 200)%nat /\
  Analytics.totalQuestions (questions s) <> 0%nat.
Proof.
  intros Hui Hview.
  pose proof (ui_size s (uiReachable_UIInv s Hui) Hview) as Hsize.
  split; [exact Hsize|]. unfold Analytics.totalQuestions. lia.
Qed.

Lemma ui_registry_size_witness :
  (1 <= length (questions finishedSession) <= 200)%nat /\
  Analytics.totalQuestions (questions finishedSession) <> 0%nat.
Proof.
  apply (ui_registry_size finishedSession).
  - apply finishedSession_uiReachable.
  - vm_compute. discriminate.
Defined.

(** X15: Through the interface no question returns to NOT_STARTED, so a record of
    that status has accrued no time and was never skipped. *)
Theorem ui_not_started_records_are_untouched (s : AppState) (q : Question) :
  uiReachable s ->
  In q (questions s) ->
  status q = NOT_STARTED ->
  timeSpentMs q = 0 /\ wasSkipped q = false.
Proof.
  intros Hui. apply (ui_not_started s (uiReachable_UIInv s Hui)).
Qed.

Lemma ui_not_started_records_are_untouched_witness :
  timeSpentMs (mkQuestion 3 NOT_STARTED 0 false) = 0 /\
  wasSkipped (mkQuestion 3 NOT_STARTED 0 false) = false.
Proof.
  apply (ui_not_started_records_are_untouched finishedSession).
  - apply finishedSession_uiReachable.
  - assert (H : nth_error (questions finishedSession) 2
                = Some (mkQuestion 3 NOT_STARTED 0 false))
      by (vm_compute; reflexivity).
    eapply nth_error_In. exact H.
  - reflexivity.
Defined.

Lemma findQuestion_unique (qs : list Question) (i : nat) (q : Question) :
  NoDup (map id qs) ->
  nth_error qs i = Some q ->
  findQuestion (id q) qs = Some q.
Proof.
  intros Hnd Hq. unfold findQuestion.
  destruct (find (fun q0 => id q0 =? id q) qs) as [q0|] eqn:Hfind.
  - apply find_some in Hfind. destruct Hfind as [Hin Hid].
    apply Z.eqb_eq in Hid.
    apply In_nth_error in Hin. destruct Hin as [j Hj].
    assert (j = i) by (eapply NoDup_ids_index; eauto). subst j. congruence.
  - exfalso. apply nth_error_In in Hq.
    pose proof (find_none _ _ Hfind q Hq) as Hne. simpl in Hne.
    now rewrite Z.eqb_refl in Hne.
Qed.

Lemma step_completed_kept (s : AppState) (e : Event) (tc : Z) (i : nat)
    (q : Question) :
  reachable s ->
  uiOffers s e = true ->
  withinSession e = true ->
  nth_error (questions s) i = Some q ->
  status q = COMPLETED ->
  nth_error (questions (step s e tc)) i = Some q.
Proof.
  intros Hreach Hoff He Hq Hst.
  destruct e; try discriminate;
    try (rewrite step_questions; exact Hq).
  - apply step_tick_not_active; [exact Hq | congruence].
  - destruct (Z.eq_dec (id q) id0) as [<-|Hne];
      [|now apply step_update_other].
    apply uiOffers_update in Hoff. destruct Hoff as (_ & q0 & Hfind & Hb).
    apply reachable_Inv in Hreach. destruct Hreach as [Hnd _ _].
    rewrite (findQuestion_unique _ i q Hnd Hq) in Hfind.
    injection Hfind as <-. rewrite Hst in Hb. discriminate.
Qed.

(** X16: Through the interface COMPLETED is terminal: [ControlOverlay] shows no
    button for a completed question, so until the session is restarted the
    record keeps its status, its [timeSpentMs] and its [wasSkipped] flag,
    whatever is done to the other questions and to the clock. *)
Theorem ui_completed_is_terminal (es : list (Event * Z)) :
  forall (s s' : AppState) (i : nat) (q : Question),
    reachable s ->
    runUI s es = Some s' ->
    forallb (fun p => withinSession (fst p)) es = true ->
    nth_error (questions s) i = Some q ->
    status q = COMPLETED ->
    nth_error (questions s') i = Some q.
Proof.
  induction es as [|[e tc] rest IH]; intros s s' i q Hreach Hrun Hes Hq Hst;
    simpl in *.
  - now injection Hrun as <-.
  - destruct (uiOffers s e) eqn:Hoff; [|discriminate].
    apply andb_true_iff in Hes. destruct Hes as [He Hrest].
    apply (IH (step s e tc) s' i q); auto.
    + now constructor.
    + now apply step_completed_kept.
Qed.

Lemma ui_completed_is_terminal_witness :
  nth_error
    (questions (run (run initialState (firstn 4 finishedSessionTrace))
                    (skipn 4 finishedSessionTrace))) 0
  = Some (mkQuestion 1 COMPLETED 90000 false).
Proof.
  apply (ui_completed_is_terminal (skipn 4 finishedSessionTrace)
           (run initialState (firstn 4 finishedSessionTrace))).
  - apply reachable_run. constructor.
  - vm_compute. reflexivity.
  - reflexivity.
  - vm_compute. reflexivity.
  - reflexivity.
Defined.

End InterfaceGuarantees.

(** ** The time budget when the clock moves forward *)

Section Budget.

Import Runs.

Lemma totalTimeSpentMs_sum (qs : list Question) :
  Analytics.totalTimeSpentMs qs = sumTimeSpentMs qs.
Proof.
  unfold Analytics.totalTimeSpentMs.
  assert (H : forall acc,
             fold_left (fun a q => a + timeSpentMs q) qs acc
             = acc + sumTimeSpentMs qs).
  { induction qs as [|q rest IH]; intros acc; simpl; [lia|].
    rewrite IH. lia. }
  now rewrite H.
Qed.

Lemma map_accrue_absent (a delta : Z) (qs : list Question) :
  ~ In a (map id qs) -> map (accrue a delta) qs = qs.
Proof.
  intros Habs. apply map_fixed. intros q Hin.
  unfold accrue, accrues.
  destruct (Z.eqb_spec (id q) a) as [Heq|]; [|reflexivity].
  destruct Habs. rewrite <- Heq. now apply in_map.
Qed.

Lemma sum_accrue_le (a delta : Z) (qs : list Question) :
  NoDup (map id qs) ->
  0 <= delta ->
  sumTimeSpentMs qs <= sumTimeSpentMs (map (accrue a delta) qs)
                    <= sumTimeSpentMs qs + delta.
Proof.
  intros Hnd Hd. induction qs as [|q rest IH]; simpl; [lia|].
  simpl in Hnd. inversion Hnd as [|x l Hnotin Hnd']; subst.
  unfold accrue at 1 3. destruct (accrues a q) eqn:Hacc.
  - apply accrues_spec in Hacc. destruct Hacc as [Hid _].
    rewrite map_accrue_absent by (now rewrite <- Hid). simpl. lia.
  - specialize (IH Hnd'). lia.
Qed.

Lemma sum_updatedRecord (id0 : Z) (newStatus : QuestionStatus)
    (qs : list Question) :
  sumTimeSpentMs (map (updatedRecord id0 newStatus) qs) = sumTimeSpentMs qs.
Proof.
  induction qs as [|q rest IH]; simpl; [reflexivity|].
  now rewrite updatedRecord_timeSpentMs, IH.
Qed.

Lemma sum_newQuestions (count : Z) : sumTimeSpentMs (newQuestions count) = 0.
Proof.
  unfold newQuestions. induction (seq 0 (Z.to_nat count)) as [|i l IH];
    simpl; [reflexivity | now rewrite IH].
Qed.

Lemma step_remainingTimeMs (s : AppState) (e : Event) (tc : Z) :
  remainingTimeMs (step s e tc) =
  match e with
  | StartSession count newConfig => allocatedMs count newConfig
  | Restart => 0
  | Tick now =>
      match timerIntervalRef s with
      | Some _ => remainingTimeMs s - (now - lastTickRef s)
      | None => remainingTimeMs s
      end
  | _ => remainingTimeMs s
  end.
Proof.
  unfold step. rewrite commit_remainingTimeMs. destruct e; simpl;
    try reflexivity.
  - destruct (timerIntervalRef s) as [[[a|]]|]; reflexivity.
  - rewrite updateQuestionStatus_eq.
    destruct (existsb (hasId id0) (questions s)); [|reflexivity].
    now destruct newStatus.
Qed.

Lemma step_totalAllocatedTimeMs (s : AppState) (e : Event) (tc : Z) :
  totalAllocatedTimeMs (step s e tc) =
  match e with
  | StartSession count newConfig => allocatedMs count newConfig
  | _ => totalAllocatedTimeMs s
  end.
Proof.
  unfold step. rewrite commit_totalAllocatedTimeMs. destruct e; simpl;
    try reflexivity.
  - destruct (timerIntervalRef s) as [[[a|]]|]; reflexivity.
  - rewrite updateQuestionStatus_eq.
    destruct (existsb (hasId id0) (questions s)); [|reflexivity].
    now destruct newStatus.
Qed.

(** One forward step: accumulated times stay non-negative. *)
Lemma step_nonnegative (s : AppState) (e : Event) (tc : Z) :
  tickForward s e = true ->
  Forall (fun q => 0 <= timeSpentMs q) (questions s) ->
  Forall (fun q => 0 <= timeSpentMs q) (questions (step s e tc)).
Proof.
  intros Hfw Hs. rewrite step_questions. destruct e; try exact Hs.
  - apply Forall_map, Forall_forall. intros i _. simpl. lia.
  - destruct (timerIntervalRef s) as [[[a|]]|]; try exact Hs.
    simpl in Hfw. apply Z.leb_le in Hfw.
    apply Forall_map. revert Hs. apply Forall_impl. intros q Hq.
    unfold accrue. destruct (accrues a q); simpl; lia.
  - apply Forall_map. revert Hs. apply Forall_impl. intros q Hq.
    now rewrite updatedRecord_timeSpentMs.
  - constructor.
Qed.

(** X17: While the timer never reads the clock behind its last reading, no
    sequence of events makes a [timeSpentMs] negative: from a state whose
    records have non-negative times, such as the mounted component, every
    state reached has non-negative times. *)
Theorem timeSpentMs_is_never_negative (es : list (Event * Z)) :
  forall s : AppState,
    Forall (fun q => 0 <= timeSpentMs q) (questions s) ->
    allForward s es = true ->
    Forall (fun q => 0 <= timeSpentMs q) (questions (run s es)).
Proof.
  induction es as [|[e tc] rest IH]; intros s Hs Hfw; simpl in *;
    [exact Hs|].
  apply andb_true_iff in Hfw. destruct Hfw as [He Hrest].
  apply IH; [|exact Hrest]. now apply step_nonnegative.
Qed.

Lemma timeSpentMs_is_never_negative_witness :
  Forall (fun q => 0 <= timeSpentMs q) (questions finishedSession).
Proof.
  apply (timeSpentMs_is_never_negative finishedSessionTrace initialState).
  - constructor.
  - vm_compute. reflexivity.
Defined.

Lemma step_budget (s : AppState) (e : Event) (tc : Z) :
  reachable s ->
  uiOffers s e = true ->
  tickForward s e = true ->
  (view s <> SETUP ->
   sumTimeSpentMs (questions s) + remainingTimeMs s
   <= totalAllocatedTimeMs s) ->
  view (step s e tc) <> SETUP ->
  sumTimeSpentMs (questions (step s e tc)) + remainingTimeMs (step s e tc)
  <= totalAllocatedTimeMs (step s e tc).
Proof.
  intros Hreach Hoff Hfw Hs.
  rewrite step_view, step_questions, step_remainingTimeMs,
    step_totalAllocatedTimeMs.
  destruct e; try exact Hs.
  - intros _. rewrite sum_newQuestions. lia.
  - intros Hv. specialize (Hs Hv).
    simpl in Hfw. apply Z.leb_le in Hfw.
    destruct (timerIntervalRef s) as [[[a|]]|]; try lia.
    apply reachable_Inv in Hreach. destruct Hreach as [Hnd _ _].
    pose proof (sum_accrue_le a (now - lastTickRef s) (questions s) Hnd).
    lia.
  - intros Hv. rewrite sum_updatedRecord. now apply Hs.
  - intros _. apply Hs. simpl in Hoff. apply AppView_eqb_eq in Hoff.
    congruence.
  - intros Hv. now destruct Hv.
Qed.

Lemma runUI_budget (es : list (Event * Z)) :
  forall s s' : AppState,
    reachable s ->
    (view s <> SETUP ->
     sumTimeSpentMs (questions s) + remainingTimeMs s
     <= totalAllocatedTimeMs s) ->
    runUI s es = Some s' ->
    allForward s es = true ->
    view s' <> SETUP ->
    sumTimeSpentMs (questions s') + remainingTimeMs s'
    <= totalAllocatedTimeMs s'.
Proof.
  induction es as [|[e tc] rest IH]; intros s s' Hreach Hs Hrun Hfw;
    simpl in *.
  - now injection Hrun as <-.
  - destruct (uiOffers s e) eqn:Hoff; [|discriminate].
    apply andb_true_iff in Hfw. destruct Hfw as [He Hrest].
    apply (IH (step s e tc) s'); auto.
    + now constructor.
    + now apply step_budget.
Qed.

(** X18: In a session driven through the interface with a clock that moves
    forward, the time spent on all questions and the remaining time together
    never exceed the allocation; hence the difference the analytics show is
    at least the remaining time, and a session finished with time remaining
    is reported as under budget. *)
Theorem time_spent_within_budget (es : list (Event * Z)) (s : AppState) :
  runUI initialState es = Some s ->
  allForward initialState es = true ->
  view s <> SETUP ->
  Analytics.totalTimeSpentMs (questions s) + remainingTimeMs s
  <= totalAllocatedTimeMs s /\
  remainingTimeMs s
  <= Analytics.timeDifferenceMs (questions s) (totalAllocatedTimeMs s) /\
  (0 <= remainingTimeMs s ->
   Analytics.isUnderBudget (questions s) (totalAllocatedTimeMs s) = true).
Proof.
  intros Hrun Hfw Hview.
  assert (H : sumTimeSpentMs (questions s) + remainingTimeMs s
              <= totalAllocatedTimeMs s).
  { apply (runUI_budget es initialState s); auto.
    - constructor.
    - intros Hv. now destruct Hv. }
  unfold Analytics.isUnderBudget, Analytics.timeDifferenceMs.
  rewrite totalTimeSpentMs_sum.
  split; [exact H|]. split; [lia|].
  intros Hrem. apply Z.leb_le. lia.
Qed.

Lemma time_spent_within_budget_witness :
  Analytics.isUnderBudget (questions finishedSession)
    (totalAllocatedTimeMs finishedSession) = true.
Proof.
  refine (proj2 (proj2 (time_spent_within_budget finishedSessionTrace
                          finishedSession _ _ _)) _).
  - vm_compute. reflexivity.
  - vm_compute. reflexivity.
  - vm_compute. discriminate.
  - vm_compute. discriminate.
Defined.

End Budget.

(** ** Pausing a question *)

Section QuestionPause.

(** X19: Pausing the active question does not pause the session: the last-tick
    timestamp is kept, and while the clock runs every later tick lowers the
    remaining time by its whole delta and credits no question. *)
Theorem question_pause_keeps_the_global_clock (s : AppState) (id0 : Z)
    (now tc t tc' : Z) :
  reachable s ->
  running s = true ->
  activeQuestionId s = Some id0 ->
  let s' := step s (UpdateStatus id0 PAUSED now) tc in
  lastTickRef s' = lastTickRef s /\
  remainingTimeMs (step s' (Tick t) tc')
  = remainingTimeMs s - (t - lastTickRef s) /\
  questions (step s' (Tick t) tc') = questions s'.
Proof.
  intros Hreach Hrun Ha s'.
  assert (Hhandle : s' = setQuestions
                           (fun _ => map (updatedRecord id0 PAUSED)
                                         (questions s)) s).
  { unfold s', step. simpl. rewrite updateQuestionStatus_eq.
    assert (Hsame : (if existsb (hasId id0) (questions s)
                     then statusEffect id0 PAUSED now s else s) = s)
      by now destruct (existsb (hasId id0) (questions s)).
    rewrite Hsame. apply commit_unchanged. now apply depsUnchanged_fields. }
  assert (Hinv' : Inv s') by (apply reachable_Inv; now constructor).
  assert (Hreg : timerIntervalRef s' <> None).
  { apply interval_iff_running; [exact Hinv'|].
    unfold s'. now rewrite step_update_running. }
  assert (Hlast : lastTickRef s' = lastTickRef s) by now rewrite Hhandle.
  split; [exact Hlast|].
  rewrite step_tick_remainingTimeMs, step_tick_questions by assumption.
  rewrite Hlast. split; [now rewrite Hhandle|].
  apply map_fixed. intros q Hin. apply credit_not_linked.
  unfold linked. rewrite Hhandle in Hin |- *. simpl in *. rewrite Ha.
  apply in_map_iff in Hin. destruct Hin as (q0 & <- & _).
  unfold accrues, updatedRecord, hasId.
  destruct (id q0 =? id0) eqn:Hid; simpl; rewrite Hid; [reflexivity|].
  reflexivity.
Qed.

Lemma question_pause_keeps_the_global_clock_witness :
  remainingTimeMs
    (step (step question1Running (UpdateStatus 1 PAUSED 50) 50)
          (Tick 100) 100)
  = remainingTimeMs question1Running - (100 - lastTickRef question1Running).
Proof.
  refine (proj1 (proj2
    (question_pause_keeps_the_global_clock question1Running 1 50 50 100 100
       _ _ _))).
  - apply question1Running_reachable.
  - vm_compute. reflexivity.
  - vm_compute. reflexivity.
Defined.

End QuestionPause.

(** ** The single active question *)

Section CallerContract.

Lemma countStatus_map_status (f : Question -> Question) (st : QuestionStatus)
    (qs : list Question) :
  (forall q, status (f q) = status q) ->
  countStatus st (map f qs) = countStatus st qs.
Proof.
  intros Hf. unfold countStatus.
  induction qs as [|q rest IH]; simpl; [reflexivity|].
  rewrite Hf. destruct (QuestionStatus_eqb (status q) st); simpl; now rewrite IH.
Qed.

Lemma countStatus_newQuestions (count : Z) :
  countStatus ACTIVE (newQuestions count) = 0%nat.
Proof.
  unfold countStatus, newQuestions.
  induction (seq 0 (Z.to_nat count)) as [|i l IH]; simpl; [reflexivity|exact IH].
Qed.

Lemma countStatus_update_other (id0 : Z) (newStatus : QuestionStatus)
    (qs : list Question) :
  newStatus <> ACTIVE ->
  (countStatus ACTIVE (map (updatedRecord id0 newStatus) qs)
   <= countStatus ACTIVE qs)%nat.
Proof.
  intros Hst. unfold countStatus.
  induction qs as [|q rest IH]; simpl; [lia|].
  unfold updatedRecord at 1. destruct (hasId id0 q).
  - assert (Hq : QuestionStatus_eqb
                   (status match newStatus with
                           | SKIPPED =>
                               with_wasSkipped true (with_status newStatus q)
                           | _ => with_status newStatus q
                           end) ACTIVE = false)
      by (destruct newStatus; simpl; congruence).
    rewrite Hq. destruct (QuestionStatus_eqb (status q) ACTIVE); simpl; lia.
  - destruct (QuestionStatus_eqb (status q) ACTIVE); simpl; lia.
Qed.

Lemma filter_hasId_absent (id0 : Z) (qs : list Question) :
  ~ In id0 (map id qs) -> filter (hasId id0) qs = [].
Proof.
  induction qs as [|q rest IH]; simpl; [reflexivity|].
  intros Habs. unfold hasId at 1.
  destruct (Z.eqb_spec (id q) id0) as [Heq|Hne]; [destruct Habs; auto|].
  apply IH. intros Hin. apply Habs. auto.
Qed.

Lemma countStatus_activate (id0 : Z) (qs : list Question) :
  NoDup (map id qs) ->
  forallb (fun q => negb (QuestionStatus_eqb (status q) ACTIVE)
                    || (id q =? id0)) qs = true ->
  (countStatus ACTIVE (map (updatedRecord id0 ACTIVE) qs) <= 1)%nat.
Proof.
  intros Hnd Hcontract.
  assert (Hcount : countStatus ACTIVE (map (updatedRecord id0 ACTIVE) qs)
                   = length (filter (hasId id0) qs)).
  { clear Hnd. unfold countStatus.
    induction qs as [|q rest IH]; simpl in *; [reflexivity|].
    apply andb_true_iff in Hcontract. destruct Hcontract as [Hq Hrest].
    unfold updatedRecord at 1. destruct (hasId id0 q) eqn:Hid; simpl.
    - now rewrite IH.
    - unfold hasId in Hid. rewrite Hid, orb_false_r in Hq.
      apply negb_true_iff in Hq. rewrite Hq. now apply IH. }
  rewrite Hcount. clear Hcount Hcontract.
  induction qs as [|q rest IH]; simpl in *; [lia|].
  inversion Hnd as [|x l Hnotin Hnd']; subst.
  unfold hasId at 1. destruct (Z.eqb_spec (id q) id0) as [Heq|Hne].
  - rewrite filter_hasId_absent by (now rewrite <- Heq). simpl. lia.
  - now apply IH.
Qed.

Lemma step_keepsContract (s : AppState) (e : Event) (tc : Z) :
  Inv s ->
  atMostOneActive s ->
  keepsContract s e = true ->
  atMostOneActive (step s e tc).
Proof.
  intros [Hnd _ _] Hone Hcontract. unfold atMostOneActive in *.
  rewrite step_questions. destruct e; try exact Hone.
  - rewrite countStatus_newQuestions. lia.
  - destruct (timerIntervalRef s) as [[[a|]]|]; try exact Hone.
    rewrite countStatus_map_status; [exact Hone|].
    intros q. apply accrue_status.
  - destruct newStatus;
      try (etransitivity;
           [apply countStatus_update_other; discriminate | exact Hone]).
    now apply countStatus_activate.
  - unfold countStatus. simpl. lia.
Qed.

Lemma run_keepsContract (es : list (Event * Z)) :
  forall s,
    reachable s ->
    atMostOneActive s ->
    allKeepContract s es = true ->
    atMostOneActive (run s es).
Proof.
  induction es as [|[e tc] rest IH]; intros s Hreach Hone Hes; simpl in *;
    [exact Hone|].
  apply andb_true_iff in Hes. destruct Hes as [He Hrest].
  apply IH; [now constructor | | exact Hrest].
  apply step_keepsContract; auto. now apply reachable_Inv.
Qed.

(** C1 (amended): the status transition changes only records with the given
    id, in any state, so it demotes no other ACTIVE record.  At most one
    record has status ACTIVE as long as the callers keep the contract that
    ACTIVE is requested for a record only when no record with another id is
    ACTIVE: from a reachable state with at most one ACTIVE record, every run
    of events that keeps the contract leads to a state with at most one
    ACTIVE record.  With or without the contract, in every reachable state at
    most one record is both ACTIVE and the one [activeQuestionId] refers to,
    so the clock credits at most one record. *)
Theorem C1_at_most_one_linked (s : AppState) (es : list (Event * Z)) :
  (forall id0 newStatus now tc k q,
      nth_error (questions s) k = Some q ->
      id q <> id0 ->
      nth_error (questions (step s (UpdateStatus id0 newStatus now) tc)) k
      = Some q) /\
  (reachable s ->
   atMostOneActive s ->
   allKeepContract s es = true ->
   atMostOneActive (run s es)) /\
  (reachable s ->
   forall i j qi qj,
     nth_error (questions s) i = Some qi ->
     nth_error (questions s) j = Some qj ->
     linked s qi = true ->
     linked s qj = true ->
     i = j).
Proof.
  split; [|split].
  - intros id0 newStatus now tc k q Hk Hid. now apply step_update_other.
  - intros Hreach Hone Hes. now apply run_keepsContract.
  - intros Hreach i j qi qj Hi Hj Hli Hlj.
    apply reachable_Inv in Hreach. destruct Hreach as [Hnd _ _].
    apply linked_id in Hli, Hlj.
    destruct Hli as [Hai _], Hlj as [Haj _].
    apply (NoDup_ids_index (questions s) i j qi qj Hnd Hi Hj). congruence.
Qed.

Lemma C1_at_most_one_linked_witness :
  atMostOneActive (run initialState disciplinedTrace).
Proof.
  refine (proj1 (proj2 (C1_at_most_one_linked initialState disciplinedTrace))
            _ _ _).
  - constructor.
  - unfold atMostOneActive. vm_compute. lia.
  - vm_compute. reflexivity.
Defined.

End CallerContract.
